(** * Comment-sentiment prediction pipeline ([src/python/main.py])

    A shallow embedding of [predict_comments] and of the endpoint
    [analyze_comments_batch], together with the properties of the batch
    summary they return.

    The three pickled artifacts (vectorizer, classifier, label encoder) are
    opaque objects for the source: they are modelled as records of the methods
    the source calls, each call returning either a value or a Python exception.
    Calls to the artifacts are recorded in a trace, so that "no work was done"
    is a statement about the trace. *)

From stdpp Require Import gmap strings list fin_maps pretty.
From Stdlib Require Import ZArith QArith Lia.
From Stdlib Require Import Ascii.
From Stdlib Require PrimFloat Uint63 SpecFloat FloatAxioms.

Local Open Scope Z_scope.

(** ** Python values that serve as labels

    [MODEL.predict] yields numpy scalars: integer codes or strings.  The same
    universe serves for what the label encoder returns and for the keys of the
    [dist_counts] dictionary. *)

Inductive pyval : Type :=
  | PyInt (z : Z)
  | PyStr (s : string).

#[global] Instance pyval_eq_dec : EqDecision pyval.
Proof. solve_decision. Defined.

Definition pyval_to_sum (v : pyval) : Z + string :=
  match v with PyInt z => inl z | PyStr s => inr s end.

Definition pyval_of_sum (x : Z + string) : pyval :=
  match x with inl z => PyInt z | inr s => PyStr s end.

#[global] Instance pyval_countable : Countable pyval.
Proof.
  apply (inj_countable' pyval_to_sum pyval_of_sum).
  intros []; reflexivity.
Defined.

(** [str(label)]: decimal digits for an integer, the text itself for a
    string. *)
Definition py_str (v : pyval) : string :=
  match v with
  | PyInt z => pretty z
  | PyStr s => s
  end.

(** ** Exceptions

    Every class below derives from [Exception], so [except Exception] catches
    all of them; [except RuntimeError] catches the first only. *)

Inductive exn_class : Type :=
  | RuntimeError
  | AttributeError
  | IndexError
  | ValueError
  | OtherException.

Record exn : Type := Raise { exn_cls : exn_class; exn_msg : string }.

(** [str(e)] *)
Definition exn_str (e : exn) : string := exn_msg e.

(** ** Calls to the artifacts, and the monad that threads them *)

Inductive event : Type :=
  | EvTransform (comments : list string)
  | EvPredict
  | EvPredictProba
  | EvInverseTransform (labels : list pyval).

(** A computation yields the calls it made and then an exception or a value. *)
Definition M (A : Type) : Type := (list event * (exn + A))%type.

Definition ret {A} (a : A) : M A := ([], inr a).

Definition raise {A} (e : exn) : M A := ([], inl e).

Definition bind {A B} (m : M A) (k : A → M B) : M B :=
  match m.2 with
  | inl e => (m.1, inl e)
  | inr a => let r := k a in ((m.1 ++ r.1)%list, r.2)
  end.

(** A method call on an artifact: logged, then its outcome. *)
Definition call {A} (ev : event) (outcome : exn + A) : M A := ([ev], outcome).

(** [try: m  except Exception: h] *)
Definition try_except {A} (m : M A) (h : exn → M A) : M A :=
  match m.2 with
  | inl e => let r := h e in ((m.1 ++ r.1)%list, r.2)
  | inr a => m
  end.

Notation "'let*' x ':=' m 'in' k" := (bind m (fun x => k))
  (at level 10, x name, m at level 100, k at level 200).

(** [seq[i]] for a non-negative index *)
Definition getitem {A} (seq : list A) (i : nat) : M A :=
  match seq !! i with
  | Some x => ret x
  | None => raise (Raise IndexError "index out of range")
  end.

(** ** Floating-point interface

    The operations on Python floats that the source uses.  Their IEEE-754
    results are left to the instance; the pipeline is stated over the
    interface. *)

Class PyFloat (float : Type) : Type := {
  float_zero : float;                       (* the literal 0.0 *)
  float_gt : float → float → bool;          (* a > b *)
  int_truediv : Z → Z → float;              (* v / total on two ints *)
  float_mul_int : float → Z → float;        (* x * 100 *)
  float_div_int : float → Z → float;        (* x / total *)
  float_sum : list float → float;           (* sum(xs), xs non-empty *)
  float_round : float → Z → float;          (* round(x, ndigits) *)
}.

(** What [max] relies on: an item that beats the running maximum is not beaten
    by anything the running maximum was not beaten by.  IEEE comparison has
    this property, also in the presence of NaN. *)
Class PyFloatOrder (float : Type) `{!PyFloat float} : Prop := {
  float_gt_step : ∀ x y m : float,
    float_gt x m = true → float_gt y m = false → float_gt y x = false;
  float_gt_irrefl : ∀ x : float, float_gt x x = false;
}.

Section Pipeline.

Context {float : Type} `{!PyFloat float} {matrix : Type}.

(** [max(row)]: the first item, replaced by each later item that is strictly
    greater. *)
Definition py_max_from (m : float) (row : list float) : float :=
  foldl (λ best x, if float_gt x best then x else best) m row.

Definition py_max (row : list float) : M float :=
  match row with
  | [] => raise (Raise ValueError "max() arg is an empty sequence")
  | x :: rest => ret (py_max_from x rest)
  end.

(** ** The artifacts *)

Record Vectorizer : Type := {
  transform : list string → exn + matrix;
}.

Record Classifier : Type := {
  class_name : string;                                   (* __class__.__name__ *)
  predict : matrix → exn + list pyval;
  predict_proba : option (matrix → exn + list (list float));
      (* None: the attribute does not exist *)
  classes_ : list pyval;
      (* the class of each column of predict_proba; never read by the source *)
}.

Record LabelEncoder : Type := {
  inverse_transform : list pyval → exn + list pyval;
}.

(** The module-level globals set by [load_models]. *)
Record Globals : Type := {
  VECTORIZER : option Vectorizer;
  MODEL : option Classifier;
  LABEL_ENCODER : option LabelEncoder;
}.

(** ** Results *)

Record PredictionResult : Type := {
  comment : string;
  sentiment : pyval;
  confidence : float;
}.

Record Distribution : Type := {
  counts : gmap pyval Z;
  percentages : gmap pyval float;
}.

Record BatchSummary : Type := {
  count : Z;
  results : list PredictionResult;
  distribution : Distribution;
  average_confidence : float;
  model : option string;
}.

(** ** [predict_comments] *)

(** Lines 138-142: [probs] stays [None] when [predict_proba] is missing or
    raises. *)
Definition try_predict_proba (clf : Classifier) (X : matrix)
  : M (option (list (list float))) :=
  try_except
    (match predict_proba clf with
     | Some f => let* p := call EvPredictProba (f X) in ret (Some p)
     | None => raise (Raise AttributeError "predict_proba")
     end)
    (λ _, ret None).

(** Lines 147-152 *)
Definition row_confidence (probs : option (list (list float))) (i : nat)
  : M float :=
  match probs with
  | Some p => let* row := getitem p i in py_max row
  | None => ret float_zero
  end.

(** Lines 155-161 *)
Definition row_sentiment (enc : option LabelEncoder) (label : pyval)
  : M pyval :=
  try_except
    (match enc with
     | Some le =>
         let* out := call (EvInverseTransform [label])
                          (inverse_transform le [label]) in
         getitem out 0
     | None => ret (PyStr (py_str label))
     end)
    (λ _, ret (PyStr (py_str label))).

(** Lines 145-167: the loop over [enumerate(comments)], from index [i] on,
    appending to [acc]. *)
Fixpoint predict_rows (enc : option LabelEncoder) (preds : list pyval)
    (probs : option (list (list float))) (i : nat) (comments : list string)
    (acc : list PredictionResult) : M (list PredictionResult) :=
  match comments with
  | [] => ret acc
  | text :: rest =>
      let* label := getitem preds i in
      let* conf := row_confidence probs i in
      let* sent := row_sentiment enc label in
      predict_rows enc preds probs (S i) rest
        (acc ++ [ {| comment := text; sentiment := sent; confidence := conf |} ])
  end.

(** Lines 170-172 *)
Definition count_step (d : gmap pyval Z) (r : PredictionResult)
  : gmap pyval Z :=
  <[ sentiment r := default 0 (d !! sentiment r) + 1 ]> d.

Definition dist_counts (rs : list PredictionResult) : gmap pyval Z :=
  foldl count_step ∅ rs.

(** Line 174 *)
Definition dist_percent (d : gmap pyval Z) (total : Z) : gmap pyval float :=
  (λ v, float_round (float_mul_int (int_truediv v total) 100) 1) <$> d.

(** Line 176 *)
Definition avg_conf (rs : list PredictionResult) (total : Z) : float :=
  if decide (total = 0) then float_zero
  else float_div_int (float_sum (confidence <$> rs)) total.

(** Lines 169-184 *)
Definition summarize (g : Globals) (rs : list PredictionResult) : BatchSummary :=
  let total := Z.of_nat (length rs) in
  {| count := total;
     results := rs;
     distribution :=
       {| counts := dist_counts rs;
          percentages := dist_percent (dist_counts rs) total |};
     average_confidence := avg_conf rs total;
     model := class_name <$> MODEL g |}.

Definition predict_comments (g : Globals) (comments : list string)
  : M BatchSummary :=
  match VECTORIZER g, MODEL g with
  | Some vec, Some clf =>
      let* X := call (EvTransform comments) (transform vec comments) in
      let* preds := call EvPredict (predict clf X) in
      let* probs := try_predict_proba clf X in
      let* rs := predict_rows (LABEL_ENCODER g) preds probs 0%nat comments [] in
      ret (summarize g rs)
  | _, _ => raise (Raise RuntimeError "Models not loaded on server")
  end.

(** ** Values of the steps, for stating what a run returns *)

(** The value [probs] holds after lines 138-142. *)
Definition probs_of (clf : Classifier) (X : matrix)
  : option (list (list float)) :=
  match predict_proba clf with
  | Some f => match f X with inr p => Some p | inl _ => None end
  | None => None
  end.

(** The value [sentiment] holds after lines 155-161. *)
Definition decoded (enc : option LabelEncoder) (label : pyval) : pyval :=
  match enc with
  | Some le =>
      match inverse_transform le [label] with
      | inr (v :: _) => v
      | _ => PyStr (py_str label)
      end
  | None => PyStr (py_str label)
  end.

(** [probs] has a non-empty row for each of the first [n] indices. *)
Definition rows_available (probs : option (list (list float))) (n : nat)
  : bool :=
  match probs with
  | Some p =>
      bool_decide (n ≤ length p)%nat &&
      forallb (λ row, match row with [] => false | _ :: _ => true end)
              (take n p)
  | None => true
  end.

(** Number of result entries that carry the label [l]. *)
Definition occurrences (l : pyval) (rs : list PredictionResult) : Z :=
  Z.of_nat (length (filter (λ r, sentiment r = l) rs)).

(** [sum(d.values())] *)
Definition sum_values (d : gmap pyval Z) : Z :=
  map_fold (λ _ v acc, v + acc) 0 d.

(** Every count stored in the dictionary is positive. *)
Definition positive_counts (d : gmap pyval Z) : Prop :=
  ∀ k v, d !! k = Some v → 0 < v.

(** The arithmetic mean, in float arithmetic, of a non-empty list. *)
Definition mean (xs : list float) : float :=
  float_div_int (float_sum xs) (Z.of_nat (length xs)).

(** Position of the first maximal item of a row, by the scan of [max]. *)
Fixpoint argmax_scan (bi : nat) (best : float) (j : nat) (row : list float)
  : nat :=
  match row with
  | [] => bi
  | x :: rest =>
      if float_gt x best then argmax_scan j x (S j) rest
      else argmax_scan bi best (S j) rest
  end.

Definition py_argmax (row : list float) : nat :=
  match row with
  | [] => 0%nat
  | x :: rest => argmax_scan 0 x 1 rest
  end.

(** Position of the first occurrence of [l] among the classes. *)
Fixpoint index_of (l : pyval) (classes : list pyval) : option nat :=
  match classes with
  | [] => None
  | c :: rest => if decide (c = l) then Some 0%nat else S <$> index_of l rest
  end.

(** The probability a row assigns to the class [l]. *)
Definition class_probability (classes : list pyval) (row : list float)
    (l : pyval) : option float :=
  match index_of l classes with
  | Some j => row !! j
  | None => None
  end.

(** ** The endpoint [POST /analyze/comments/batch] *)

Record BatchCommentsRequest : Type := {
  comments : list string;
}.

(** The dictionary the endpoint returns; [None] is an absent key. *)
Record ResponseDict : Type := {
  r_count : Z;
  r_results : list PredictionResult;
  r_distribution : option Distribution;
  r_average_confidence : option float;
  r_model : option (option string);
}.

(** The dictionary built at lines 178-184 carries all five keys. *)
Definition summary_dict (s : BatchSummary) : ResponseDict :=
  {| r_count := count s;
     r_results := results s;
     r_distribution := Some (distribution s);
     r_average_confidence := Some (average_confidence s);
     r_model := Some (model s) |}.

Record HTTPException : Type := {
  status_code : Z;
  detail : string;
}.

Definition analyze_comments_batch (g : Globals) (payload : BatchCommentsRequest)
  : list event * (HTTPException + ResponseDict) :=
  let body :=
    match comments payload with
    | [] =>
        ret {| r_count := 0; r_results := []; r_distribution := None;
               r_average_confidence := None; r_model := None |}
    | _ :: _ =>
        let* out := predict_comments g (comments payload) in
        ret (summary_dict out)
    end in
  (body.1,
   match body.2 with
   | inr resp => inr resp
   | inl e =>
       match exn_cls e with
       | RuntimeError => inl {| status_code := 500; detail := exn_str e |}
       | _ => inl {| status_code := 500; detail := exn_str e |}
       end
   end).

(** ** The calls of a run that does not fail *)

(** One [inverse_transform] per label, each on a singleton, when an encoder is
    loaded. *)
Definition decoder_calls (enc : option LabelEncoder) (labels : list pyval)
  : list event :=
  match enc with
  | Some _ => (λ l, EvInverseTransform [l]) <$> labels
  | None => []
  end.

Definition proba_calls (clf : Classifier) : list event :=
  match predict_proba clf with
  | Some _ => [EvPredictProba]
  | None => []
  end.

(** ** [load_models] (lines 42-66) *)

(** What lies at one of the three paths under [MODEL_DIR]: nothing, a pickle
    that loads, or a file whose [open] or [pickle.load] raises. *)
Inductive pickle_file (A : Type) : Type :=
  | NoFile
  | Pickled (a : A)
  | Unreadable (e : exn).

Arguments NoFile {A}.
Arguments Pickled {A} a.
Arguments Unreadable {A} e.

Record ModelDir : Type := {
  tfidf_vectorizer_pkl : pickle_file Vectorizer;
  random_forest_pkl : pickle_file Classifier;
  label_encoder_pkl : pickle_file LabelEncoder;
}.

(** Lines 43-45 *)
Definition unset : Globals :=
  {| VECTORIZER := None; MODEL := None; LABEL_ENCODER := None |}.

(** [if os.path.exists(path): with open(path, "rb") as f: G = pickle.load(f)] *)
Definition load_step {A} (file : pickle_file A) (current : option A)
  : exn + option A :=
  match file with
  | NoFile => inr current
  | Pickled a => inr (Some a)
  | Unreadable e => inl e
  end.

(** The three steps share one [try]: the first exception ends the function,
    with the assignments made so far kept. *)
Definition load_models (g : Globals) (dir : ModelDir) : Globals :=
  match load_step (tfidf_vectorizer_pkl dir) (VECTORIZER g) with
  | inl _ => g
  | inr v =>
      let g1 := {| VECTORIZER := v; MODEL := MODEL g;
                   LABEL_ENCODER := LABEL_ENCODER g |} in
      match load_step (random_forest_pkl dir) (MODEL g1) with
      | inl _ => g1
      | inr m =>
          let g2 := {| VECTORIZER := v; MODEL := m;
                       LABEL_ENCODER := LABEL_ENCODER g |} in
          match load_step (label_encoder_pkl dir) (LABEL_ENCODER g2) with
          | inl _ => g2
          | inr le => {| VECTORIZER := v; MODEL := m; LABEL_ENCODER := le |}
          end
      end
  end.

(** ** The endpoint [POST /analyze/video] (lines 252-311) *)

Record AnalyzeVideoRequest : Type := {
  video_url : string;
  analyze_comments : option bool;      (* Optional[bool] = False *)
  max_comments : option Z;             (* Optional[int] = 100 *)
}.

(** An item of [info["comments"]]: a dictionary, of which the source reads
    three keys ([None]: the key is missing or null), or anything else, given
    by its [str]. *)
Inductive raw_comment : Type :=
  | CommentDict (text content comment_key : option string)
  | CommentOther (str : string).

(** What [extract_info] returns, as far as the source reads it. *)
Record VideoInfo : Type := {
  info_title : option string;
  info_uploader : option string;
  info_view_count : option Z;
  info_like_count : option Z;
  info_duration : option Z;
  info_webpage_url : option string;
  info_comments : option (list raw_comment);
}.

(** [a or b] on an optional string: [a] when it is a non-empty string. *)
Definition str_or (a : option string) (b : string) : string :=
  match a with
  | Some s => if decide (s = "") then b else s
  | None => b
  end.

(** Lines 280-283 *)
Definition comment_text (c : raw_comment) : string :=
  match c with
  | CommentDict t c' m => str_or t (str_or c' (str_or m ""))
  | CommentOther s => s
  end.

(** [seq[:stop]]: everything for [None], the first [stop] items for a
    non-negative [stop], all but the last [-stop] items for a negative one. *)
Definition slice_to {A} (stop : option Z) (seq : list A) : list A :=
  match stop with
  | None => seq
  | Some n =>
      if 0 <=? n then take (Z.to_nat n) seq
      else take (Z.to_nat (Z.of_nat (length seq) + n)) seq
  end.

(** Lines 275-285: the texts handed to the pipeline. *)
Definition comments_texts (info : VideoInfo) (payload : AnalyzeVideoRequest)
  : list string :=
  filter (λ text, text ≠ "")
    (comment_text <$> slice_to (max_comments payload)
                               (default [] (info_comments info))).

(** The [comments_analysis] dictionary; [None] is an absent key. *)
Record CommentsAnalysis : Type := {
  ca_analyzed : Z;
  ca_summary : string;
  ca_distribution : option Distribution;
  ca_average_confidence : option float;
  ca_sample_results : option (list PredictionResult);
  ca_model_used : option (option string);
}.

Record VideoResult : Type := {
  v_title : option string;
  v_channel : option string;
  v_views : option Z;
  v_likes : option Z;
  v_duration : option Z;
  v_url : option string;
  v_analysis_sentiment : string;
  v_analysis_keywords : list string;
  v_comments_analysis : option CommentsAnalysis;
}.

(** Lines 260-271 *)
Definition video_result (info : VideoInfo) (ca : option CommentsAnalysis)
  : VideoResult :=
  {| v_title := info_title info;
     v_channel := info_uploader info;
     v_views := info_view_count info;
     v_likes := info_like_count info;
     v_duration := info_duration info;
     v_url := info_webpage_url info;
     v_analysis_sentiment := "neutral";
     v_analysis_keywords := [];
     v_comments_analysis := ca |}.

(** Lines 288-291 and 306-309: the two dictionaries with [analyzed] 0. *)
Definition not_analyzed (summary : string) : CommentsAnalysis :=
  {| ca_analyzed := 0; ca_summary := summary; ca_distribution := None;
     ca_average_confidence := None; ca_sample_results := None;
     ca_model_used := None |}.

(** Lines 298-305 *)
Definition analyzed_with (out : BatchSummary) : CommentsAnalysis :=
  {| ca_analyzed := count out;
     ca_summary := "Comments analyzed using server ML model";
     ca_distribution := Some (distribution out);
     ca_average_confidence := Some (average_confidence out);
     ca_sample_results := Some (take 20 (results out));
     ca_model_used := Some (model out) |}.

(** How the endpoint ends when it does not return: with the [HTTPException]
    it raises, or with an exception it does not handle. *)
Inductive endpoint_error : Type :=
  | HttpError (h : HTTPException)
  | Uncaught (e : exn).

Definition analyze_video (ydl : string → exn + VideoInfo) (g : Globals)
    (payload : AnalyzeVideoRequest)
  : list event * (endpoint_error + VideoResult) :=
  match ydl (video_url payload) with
  | inl e => ([], inl (HttpError {| status_code := 400; detail := exn_str e |}))
  | inr info =>
      match analyze_comments payload with
      | Some true =>
          match comments_texts info payload with
          | [] =>
              ([], inr (video_result info (Some (not_analyzed
                 "Could not fetch comments from yt_dlp extractor. You can POST comments to /analyze/comments/batch for model analysis."))))
          | texts =>
              let run := predict_comments g texts in
              (run.1,
               match run.2 with
               | inr out => inr (video_result info (Some (analyzed_with out)))
               | inl e =>
                   match exn_cls e with
                   | RuntimeError =>
                       inr (video_result info (Some (not_analyzed
                         ("Model not available on server: " +:+ exn_str e +:+
                          ". You can POST comments to /analyze/comments/batch to analyze using a remote model service."))))
                   | _ => inl (Uncaught e)
                   end
               end)
          end
      | _ => ([], inr (video_result info None))
      end
  end.

End Pipeline.

Arguments Vectorizer matrix : clear implicits.
Arguments Classifier float matrix : clear implicits.
Arguments Globals float matrix : clear implicits.
Arguments PredictionResult float : clear implicits.
Arguments Distribution float : clear implicits.
Arguments BatchSummary float : clear implicits.
Arguments ResponseDict float : clear implicits.
Arguments NoFile {A}.
Arguments Pickled {A} a.
Arguments Unreadable {A} e.
Arguments ModelDir float matrix : clear implicits.
Arguments CommentsAnalysis float : clear implicits.
Arguments VideoResult float : clear implicits.

(** ** An exact-arithmetic instance of the float interface

    Rationals in place of binary64: every operation is the exact one, and
    [round] rounds half to even.  It serves to run the pipeline on concrete
    batches. *)

Module Exact.

Definition round_half_even (q : Q) : Z :=
  let n := Qnum q in
  let d := Z.pos (Qden q) in
  let fl := n / d in
  let r2 := 2 * (n mod d) in
  if r2 <? d then fl
  else if d <? r2 then fl + 1
  else if Z.even fl then fl else fl + 1.

Definition round_ndigits (x : Q) (ndigits : Z) : Q :=
  let scale := Qpower (inject_Z 10) ndigits in
  Qred (Qdiv (inject_Z (round_half_even (Qmult x scale))) scale).

#[global] Instance exact_float : PyFloat Q := {|
  float_zero := 0%Q;
  float_gt := λ a b, negb (Qle_bool a b);
  int_truediv := λ v total, Qred (Qdiv (inject_Z v) (inject_Z total));
  float_mul_int := λ x k, Qred (Qmult x (inject_Z k));
  float_div_int := λ x k, Qred (Qdiv x (inject_Z k));
  float_sum := λ xs, Qred (foldl Qplus 0%Q xs);
  float_round := round_ndigits;
|}.

(** A bag-of-lengths vectorizer: one feature per comment, its length. *)
Definition length_vectorizer : Vectorizer (list Z) :=
  {| transform := λ cs, inr ((λ c, Z.of_nat (String.length c)) <$> cs) |}.

(** Three classes, coded 0, 1, 2; short comments are class 2, long ones
    class 0. *)
Definition code_of (n : Z) : Z :=
  if n <? 5 then 2 else if n <? 15 then 1 else 0.

Definition proba_of (n : Z) : list Q :=
  if n <? 5 then [0.1; 0.2; 0.7]%Q
  else if n <? 15 then [0.25; 0.5; 0.25]%Q
  else [0.8; 0.1; 0.1]%Q.

Definition forest : Classifier Q (list Z) :=
  {| class_name := "RandomForestClassifier";
     predict := λ X, inr (PyInt <$> (code_of <$> X));
     predict_proba := Some (λ X, inr (proba_of <$> X));
     classes_ := [PyInt 0; PyInt 1; PyInt 2] |}.

(** The same classifier without [predict_proba]. *)
Definition forest_no_proba : Classifier Q (list Z) :=
  {| class_name := "LinearSVC";
     predict := λ X, inr (PyInt <$> (code_of <$> X));
     predict_proba := None;
     classes_ := [PyInt 0; PyInt 1; PyInt 2] |}.

(** The same classifier with a [predict_proba] that raises. *)
Definition forest_bad_proba : Classifier Q (list Z) :=
  {| class_name := "SVC";
     predict := λ X, inr (PyInt <$> (code_of <$> X));
     predict_proba := Some (λ _, inl (Raise AttributeError "probability=False"));
     classes_ := [PyInt 0; PyInt 1; PyInt 2] |}.

(** A label encoder fitted on the codes 0 and 1 only: code 2 is unseen. *)
Definition encoder : LabelEncoder :=
  {| inverse_transform := λ ls,
       match ls with
       | [PyInt 0] => inr [PyStr "negative"]
       | [PyInt 1] => inr [PyStr "neutral"]
       | _ => inl (Raise ValueError "y contains previously unseen labels")
       end |}.

Definition loaded : Globals Q (list Z) :=
  {| VECTORIZER := Some length_vectorizer;
     MODEL := Some forest;
     LABEL_ENCODER := Some encoder |}.

Definition loaded_no_encoder : Globals Q (list Z) :=
  {| VECTORIZER := Some length_vectorizer;
     MODEL := Some forest;
     LABEL_ENCODER := None |}.

Definition loaded_no_proba : Globals Q (list Z) :=
  {| VECTORIZER := Some length_vectorizer;
     MODEL := Some forest_no_proba;
     LABEL_ENCODER := Some encoder |}.

Definition loaded_bad_proba : Globals Q (list Z) :=
  {| VECTORIZER := Some length_vectorizer;
     MODEL := Some forest_bad_proba;
     LABEL_ENCODER := Some encoder |}.

Definition unloaded : Globals Q (list Z) :=
  {| VECTORIZER := None; MODEL := Some forest; LABEL_ENCODER := None |}.

(** A two-class classifier with a decision threshold: it answers
    "positive" only from a probability of 0.7 on. *)
Definition thresholded : Classifier Q (list Z) :=
  {| class_name := "TunedThresholdClassifierCV";
     predict := λ X, inr ((λ n, if n <? 5 then PyStr "negative"
                                else PyStr "positive") <$> X);
     predict_proba := Some (λ X, inr ((λ n, if n <? 5 then [0.4; 0.6]%Q
                                            else [0.1; 0.9]%Q) <$> X));
     classes_ := [PyStr "negative"; PyStr "positive"] |}.

Definition loaded_thresholded : Globals Q (list Z) :=
  {| VECTORIZER := Some length_vectorizer;
     MODEL := Some thresholded;
     LABEL_ENCODER := None |}.

Definition batch : list string :=
  ["great work!"; "this broke everything"; "meh"].

(** What the pipeline makes of [batch] with all three artifacts loaded. *)
Definition batch_trace : list event :=
  [EvTransform batch; EvPredict; EvPredictProba;
   EvInverseTransform [PyInt 1]; EvInverseTransform [PyInt 0];
   EvInverseTransform [PyInt 2]].

Definition batch_results : list (PredictionResult Q) :=
  [ {| comment := "great work!"; sentiment := PyStr "neutral";
       confidence := 0.5%Q |};
    {| comment := "this broke everything"; sentiment := PyStr "negative";
       confidence := 0.8%Q |};
    {| comment := "meh"; sentiment := PyStr "2"; confidence := 0.7%Q |} ].

(** The same without a label encoder. *)
Definition batch_trace_no_encoder : list event :=
  [EvTransform batch; EvPredict; EvPredictProba].

Definition batch_results_no_encoder : list (PredictionResult Q) :=
  [ {| comment := "great work!"; sentiment := PyStr "1";
       confidence := 0.5%Q |};
    {| comment := "this broke everything"; sentiment := PyStr "0";
       confidence := 0.8%Q |};
    {| comment := "meh"; sentiment := PyStr "2"; confidence := 0.7%Q |} ].

(** A vectorizer whose [transform] raises. *)
Definition failing_vectorizer : Vectorizer (list Z) :=
  {| transform := λ _, inl (Raise ValueError "empty vocabulary") |}.

Definition loaded_failing_vectorizer : Globals Q (list Z) :=
  {| VECTORIZER := Some failing_vectorizer;
     MODEL := Some forest;
     LABEL_ENCODER := Some encoder |}.

(** A classifier that returns labels for the first two rows only. *)
Definition forest_short : Classifier Q (list Z) :=
  {| class_name := "RandomForestClassifier";
     predict := λ X, inr (PyInt <$> (code_of <$> take 2 X));
     predict_proba := None;
     classes_ := [PyInt 0; PyInt 1; PyInt 2] |}.

Definition loaded_short : Globals Q (list Z) :=
  {| VECTORIZER := Some length_vectorizer;
     MODEL := Some forest_short;
     LABEL_ENCODER := Some encoder |}.

(** A models directory whose vectorizer pickle is corrupt. *)
Definition corrupt_dir : ModelDir Q (list Z) :=
  {| tfidf_vectorizer_pkl := Unreadable (Raise OtherException "invalid load key");
     random_forest_pkl := Pickled forest;
     label_encoder_pkl := Pickled encoder |}.

(** A video with four comments, the last of them empty. *)
Definition video_info : VideoInfo :=
  {| info_title := Some "Release notes";
     info_uploader := Some "dev channel";
     info_view_count := Some 1200;
     info_like_count := Some 40;
     info_duration := Some 300;
     info_webpage_url := Some "https://www.youtube.com/watch?v=abc";
     info_comments :=
       Some [CommentDict (Some "great work!") None None;
             CommentOther "this broke everything";
             CommentDict None (Some "") (Some "meh");
             CommentDict (Some "") None None] |}.

Definition extractor (url : string) : exn + VideoInfo := inr video_info.

Definition video_request : AnalyzeVideoRequest :=
  {| video_url := "https://www.youtube.com/watch?v=abc";
     analyze_comments := Some true;
     max_comments := Some 100 |}.

End Exact.


(** * Commit analysis ([src/python/hf_models.py])

    A [string] is a sequence of bytes.  On ASCII text ([is_ascii]), where a
    character is a byte, [lower], [upper], [is_blank] and [len] below are
    Python's [str.lower], [str.upper], [not text or not text.strip()] and
    [len]; on other text they are not (Python counts and folds code points,
    and strips further white space such as U+00A0), so a property that would
    not carry over to such text is stated for ASCII messages and labels.
    Floats are binary64, as Python's. *)

Module HfModels.

Import PrimFloat.

(* A decimal literal stands for the nearest binary64 value, as in Python. *)
#[local] Set Warnings "-inexact-float,-register-all".

(** ** Strings *)

Fixpoint map_string (f : ascii → ascii) (s : string) : string :=
  match s with
  | EmptyString => EmptyString
  | String c rest => String (f c) (map_string f rest)
  end.

Definition lower_char (c : ascii) : ascii :=
  let n := N_of_ascii c in
  if ((65 <=? n) && (n <=? 90))%N then ascii_of_N (n + 32) else c.

Definition upper_char (c : ascii) : ascii :=
  let n := N_of_ascii c in
  if ((97 <=? n) && (n <=? 122))%N then ascii_of_N (n - 32) else c.

(** [s.lower()] and [s.upper()], for ASCII [s] *)
Definition lower (s : string) : string := map_string lower_char s.
Definition upper (s : string) : string := map_string upper_char s.

(** [needle in hay] *)
Fixpoint contains (needle hay : string) : bool :=
  String.prefix needle hay ||
  match hay with
  | EmptyString => false
  | String _ rest => contains needle rest
  end.

(** [c.isspace()], for an ASCII character: tab to carriage return, the four
    separators and space. *)
Definition is_space (c : ascii) : bool :=
  let n := N_of_ascii c in
  (((9 <=? n) && (n <=? 13)) || ((28 <=? n) && (n <=? 32)))%N.

(** [not text or not text.strip()], for ASCII [text] *)
Fixpoint is_blank (text : string) : bool :=
  match text with
  | EmptyString => true
  | String c rest => is_space c && is_blank rest
  end.

(** [len(s)], for ASCII [s]: one byte for each character *)
Definition len (s : string) : Z := Z.of_nat (String.length s).

(** [s.isascii()] *)
Fixpoint is_ascii (s : string) : bool :=
  match s with
  | EmptyString => true
  | String c rest => (N_of_ascii c <? 128)%N && is_ascii rest
  end.

(** ** Numbers *)

(** [float(n)], for the small non-negative integers the module divides. *)
Definition float_of_int (n : Z) : float := of_uint63 (Uint63.of_Z n).

(** [a / b] on two such integers *)
Definition int_div (a b : Z) : float := (float_of_int a / float_of_int b)%float.

(** [min(a, b)]: [a], unless [b] is smaller. *)
Definition py_min (a b : float) : float := if (b <? a)%float then b else a.

(** ** What the inference API answers *)

Inductive json : Type :=
  | JNull
  | JBool (b : bool)
  | JInt (z : Z)
  | JFloat (f : float)
  | JStr (s : string)
  | JList (items : list json)
  | JDict (fields : list (string * json)).

(** [d.get(key)] on the items of a dictionary *)
Fixpoint dict_get (key : string) (fields : list (string * json))
  : option json :=
  match fields with
  | [] => None
  | (k, v) :: rest => if decide (k = key) then Some v else dict_get key rest
  end.

Record LabelScore : Type := { ls_label : string; ls_score : float }.

(** A JSON value that is neither a list nor a dictionary. *)
Inductive scalar : Type :=
  | SNull
  | SBool (b : bool)
  | SInt (z : Z)
  | SFloat (f : float)
  | SStr (s : string).

(** The shapes of [response.json()]: the standard list of lists of
    label/score dictionaries (the source reads the first inner list only), a
    flat list of such dictionaries, the empty list, a dictionary (such as an
    error report), or a scalar.  Other shapes are outside this model. *)
Inductive hf_result : Type :=
  | HFScores (scores : list LabelScore) (rest : list json)
  | HFFlat (first : LabelScore) (rest : list json)
  | HFEmpty
  | HFDict (fields : list (string * json))
  | HFScalar (v : scalar).

(** [type(result).__name__] *)
Definition type_name (result : hf_result) : string :=
  match result with
  | HFScores _ _ | HFFlat _ _ | HFEmpty => "list"
  | HFDict _ => "dict"
  | HFScalar SNull => "NoneType"
  | HFScalar (SBool _) => "bool"
  | HFScalar (SInt _) => "int"
  | HFScalar (SFloat _) => "float"
  | HFScalar (SStr _) => "str"
  end.

(** The [AttributeError] of [result.attr], for a [result] without [attr] *)
Definition no_attribute (result : hf_result) (attr : string) : exn :=
  Raise AttributeError
    ("'" +:+ type_name result +:+ "' object has no attribute '" +:+ attr +:+ "'").

(** The labels [analyze_sentiment] reads in an answer, those of the first
    inner list, are ASCII text. *)
Definition ascii_labels (answer : exn + hf_result) : bool :=
  match answer with
  | inr (HFScores scores _) => forallb (λ x, is_ascii (ls_label x)) scores
  | _ => true
  end.

(** What [analyze_sentiment] returns: a dictionary it built, or the API's
    answer as it came. *)
Inductive sentiment_value : Type :=
  | Labeled (label : string) (score : float)
            (all_scores : option (list LabelScore))
  | Raw (result : hf_result).

(** ** [analyze_sentiment] (lines 30-79) *)

(** [max(scores, key=lambda x: x['score'])]: the first entry, replaced by
    each later entry whose score is strictly greater. *)
Fixpoint max_score_from (best : LabelScore) (rest : list LabelScore)
  : LabelScore :=
  match rest with
  | [] => best
  | x :: rest' =>
      if (ls_score best <? ls_score x)%float then max_score_from x rest'
      else max_score_from best rest'
  end.

(** Lines 62-68 *)
Definition normalize_label (raw : string) : string :=
  let label := upper raw in
  if contains "POSITIVE" label then "POSITIVE"
  else if contains "NEGATIVE" label then "NEGATIVE"
  else "NEUTRAL".

(** Line 79 *)
Definition wrap (e : exn) : exn :=
  Raise OtherException ("Hugging Face API Error: " +:+ exn_str e).

(** [post text] is the outcome of the request for [text], up to
    [response.json()]: what it raised (connection, timeout, HTTP status,
    decoding) or the decoded answer.  The texts posted are logged. *)
Definition analyze_sentiment (post : string → exn + hf_result) (text : string)
  : list string * (exn + sentiment_value) :=
  if is_blank text then ([], inr (Labeled "NEUTRAL" 0%float None))
  else
    ([text],
     match post text with
     | inl e => inl (wrap e)
     | inr (HFScores [] _) =>
         inl (wrap (Raise ValueError "max() arg is an empty sequence"))
     | inr (HFScores (x :: xs) _) =>
         let best := max_score_from x xs in
         inr (Labeled (normalize_label (ls_label best)) (ls_score best)
                      (Some (x :: xs)))
     | inr (HFFlat _ _) =>
         (* [max] iterates over the keys of the first dictionary, and
            ['label']['score'] is a TypeError *)
         inl (wrap (Raise OtherException "string indices must be integers"))
     | inr result => inr (Raw result)
     end).

(** ** [classify_commit_type] (lines 82-115) *)

Record CommitType : Type := {
  ct_type : string;
  ct_confidence : float;
  ct_all_scores : option (list (string * Z));
}.

Definition classifiers : list (string * list string) :=
  [ ("bugfix", ["fix"; "bug"; "issue"; "patch"; "resolve"]);
    ("feature", ["add"; "new"; "implement"; "feature"; "support"]);
    ("refactor", ["refactor"; "cleanup"; "reorganize"; "restructure"]);
    ("docs", ["doc"; "documentation"; "readme"; "comment"]);
    ("test", ["test"; "spec"; "coverage"]);
    ("chore", ["chore"; "deps"; "update"; "upgrade"; "bump"]);
    ("perf", ["perf"; "performance"; "optimize"; "speed"]) ].

(** [sum(1 for keyword in keywords if keyword in message_lower)] *)
Definition keyword_score (message_lower : string) (keywords : list string)
  : Z :=
  Z.of_nat (length (filter (λ k, contains k message_lower) keywords)).

(** The [scores] dictionary, in the order of the table. *)
Definition scores_of (message_lower : string) : list (string * Z) :=
  (λ c, (c.1, keyword_score message_lower c.2)) <$> classifiers.

(** [max(scores.values())] *)
Definition max_value_from (first : Z) (rest : list Z) : Z :=
  foldl (λ best x, if best <? x then x else best) first rest.

(** [max(scores, key=scores.get)]: the first type with the greatest score. *)
Fixpoint max_type_from (best : string * Z) (rest : list (string * Z))
  : string * Z :=
  match rest with
  | [] => best
  | x :: rest' =>
      if best.2 <? x.2 then max_type_from x rest' else max_type_from best rest'
  end.

(** [classifiers[commit_type]] *)
Fixpoint keywords_of (commit_type : string)
    (table : list (string * list string)) : list string :=
  match table with
  | [] => []
  | (name, keywords) :: rest =>
      if decide (name = commit_type) then keywords
      else keywords_of commit_type rest
  end.

Definition other : CommitType :=
  {| ct_type := "other"; ct_confidence := 0%float; ct_all_scores := None |}.

Definition classify_commit_type (message : string) : CommitType :=
  let message_lower := lower message in
  let scores := scores_of message_lower in
  match scores with
  | [] => other      (* not reached: the table has seven entries *)
  | first :: rest =>
      if decide (max_value_from first.2 (snd <$> rest) = 0) then other
      else
        let best := max_type_from first rest in
        let confidence :=
          int_div best.2 (Z.of_nat (length (keywords_of best.1 classifiers))) in
        {| ct_type := best.1;
           ct_confidence := py_min confidence 1%float;
           ct_all_scores := Some scores |}
  end.

(** ** [calculate_quality_score] (lines 133-154) *)

(** [sentiment.get("label")]: only a dictionary has [get]. *)
Definition sentiment_get_label (sentiment : sentiment_value)
  : exn + option json :=
  match sentiment with
  | Labeled label _ _ => inr (Some (JStr label))
  | Raw (HFDict fields) => inr (dict_get "label" fields)
  | Raw result => inl (no_attribute result "get")
  end.

Definition is_positive (label : option json) : bool :=
  match label with
  | Some (JStr s) => bool_decide (s = "POSITIVE")
  | _ => false
  end.

Definition calculate_quality_score (message : string)
    (sentiment : sentiment_value) (commit_type : CommitType) : exn + float :=
  let score := 0.5%float in
  let score := if 20 <? len message then (score + 0.2)%float else score in
  let score := if 50 <? len message then (score + 0.1)%float else score in
  match sentiment_get_label sentiment with
  | inl e => inl e
  | inr label =>
      let score := if is_positive label then (score + 0.1)%float else score in
      let score :=
        if (0.5 <? ct_confidence commit_type)%float then (score + 0.1)%float
        else score in
      inr (py_min score 1%float)
  end.

(** ** [analyze_commit] and [batch_analyze_commits] (lines 118-130, 157-161) *)

Record CommitAnalysis : Type := {
  message : string;
  sentiment : sentiment_value;
  commit_type : CommitType;
  quality_score : float;
}.

Definition analyze_commit (post : string → exn + hf_result) (msg : string)
  : list string * (exn + CommitAnalysis) :=
  let sent := analyze_sentiment post msg in
  (sent.1,
   match sent.2 with
   | inl e => inl e
   | inr sentiment =>
       let commit_type := classify_commit_type msg in
       match calculate_quality_score msg sentiment commit_type with
       | inl e => inl e
       | inr q =>
           inr {| message := msg; sentiment := sentiment;
                  commit_type := commit_type; quality_score := q |}
       end
   end).

(** [[analyze_commit(msg) for msg in messages]] *)
Fixpoint batch_analyze_commits (post : string → exn + hf_result)
    (messages : list string) : list string * (exn + list CommitAnalysis) :=
  match messages with
  | [] => ([], inr [])
  | msg :: rest =>
      let r := analyze_commit post msg in
      match r.2 with
      | inl e => (r.1, inl e)
      | inr a =>
          let rs := batch_analyze_commits post rest in
          ((r.1 ++ rs.1)%list,
           match rs.2 with
           | inl e => inl e
           | inr l => inr (a :: l)
           end)
      end
  end.

(** ** The endpoints [POST /analyze/commit] and [POST /analyze/sentiment]
    ([src/python/main.py], lines 200-206 and 243-249) *)

Definition analyze_single_commit (post : string → exn + hf_result)
    (payload_message : string)
  : list string * (HTTPException + CommitAnalysis) :=
  let r := analyze_commit post payload_message in
  (r.1,
   match r.2 with
   | inr result => inr result
   | inl e =>
       inl {| status_code := 500;
              detail := "Commit analysis failed: " +:+ exn_str e |}
   end).

Definition analyze_text_sentiment (post : string → exn + hf_result)
    (payload_text : string)
  : list string * (HTTPException + sentiment_value) :=
  let r := analyze_sentiment post payload_text in
  (r.1,
   match r.2 with
   | inr result => inr result
   | inl e =>
       inl {| status_code := 500;
              detail := "Sentiment analysis failed: " +:+ exn_str e |}
   end).

(** ** The endpoint [POST /analyze/commits/batch]
    ([src/python/main.py], lines 209-240) *)

(** The value of a binary64 as an integer, when it is one. *)
Definition float_to_Z (f : float) : option Z :=
  match FloatOps.Prim2SF f with
  | SpecFloat.S754_zero _ => Some 0
  | SpecFloat.S754_finite sign m e =>
      let mag :=
        if 0 <=? e then Some (Z.pos m * 2 ^ e)
        else if (Z.pos m mod 2 ^ (- e)) =? 0 then Some (Z.pos m / 2 ^ (- e))
        else None in
      (λ v, if sign then - v else v) <$> mag
  | _ => None
  end.

(** [a == b] on two JSON values used as dictionary keys: numbers and
    booleans compare by value, strings and null with their like only. *)
Definition key_eqb (a b : json) : bool :=
  let as_int (v : json) : option Z :=
    match v with
    | JBool b => Some (if b then 1 else 0)
    | JInt z => Some z
    | JFloat f => float_to_Z f
    | _ => None
    end in
  match a, b with
  | JNull, JNull => true
  | JStr s, JStr t => bool_decide (s = t)
  | JFloat f, JFloat g => (f =? g)%float
  | _, _ =>
      match as_int a, as_int b with
      | Some x, Some y => x =? y
      | _, _ => false
      end
  end.

(** Lists and dictionaries cannot be keys. *)
Definition hashable (v : json) : bool :=
  match v with
  | JList _ | JDict _ => false
  | _ => true
  end.

(** [d[k] = d.get(k, 0) + 1] on a dictionary in insertion order *)
Fixpoint dict_incr {K} (eqb : K → K → bool) (k : K) (d : list (K * Z))
  : list (K * Z) :=
  match d with
  | [] => [(k, 1)]
  | (k', n) :: rest =>
      if eqb k' k then (k', n + 1) :: rest
      else (k', n) :: dict_incr eqb k rest
  end.

(** ["label" in sentiment] *)
Definition has_label (sentiment : sentiment_value) : exn + bool :=
  match sentiment with
  | Labeled _ _ _ => inr true
  | Raw (HFDict fields) =>
      inr (bool_decide (is_Some (dict_get "label" fields)))
  | Raw (HFScalar (SStr s)) => inr (contains "label" s)
  | Raw (HFScalar _) =>
      inl (Raise OtherException "argument is not iterable")
  | Raw _ => inr false
  end.

(** [sentiment["label"]], for a sentiment that has the key *)
Definition label_of (sentiment : sentiment_value) : exn + json :=
  match sentiment with
  | Labeled label _ _ => inr (JStr label)
  | Raw (HFDict fields) =>
      match dict_get "label" fields with
      | Some v => inr v
      | None => inl (Raise OtherException "'label'")
      end
  | Raw _ => inl (Raise OtherException "indices must be integers")
  end.

(** Line 217: the comprehension over the results *)
Fixpoint sentiment_labels (results : list CommitAnalysis)
  : exn + list json :=
  match results with
  | [] => inr []
  | r :: rest =>
      match has_label (sentiment r) with
      | inl e => inl e
      | inr true =>
          match label_of (sentiment r) with
          | inl e => inl e
          | inr l =>
              match sentiment_labels rest with
              | inl e => inl e
              | inr ls => inr (l :: ls)
              end
          end
      | inr false => sentiment_labels rest
      end
  end.

(** Lines 221-223 *)
Fixpoint count_labels (labels : list json) (d : list (json * Z))
  : exn + list (json * Z) :=
  match labels with
  | [] => inr d
  | l :: rest =>
      if hashable l then count_labels rest (dict_incr key_eqb l d)
      else inl (Raise OtherException "unhashable type")
  end.

(** Lines 225-227 *)
Definition count_types (types : list string) : list (string * Z) :=
  foldl (λ d t, dict_incr (λ a b, bool_decide (a = b)) t d) [] types.

Record Statistics : Type := {
  sentiment_distribution : list (json * Z);
  type_distribution : list (string * Z);
  average_quality_score : json;
  total_commits : Z;
}.

(** The dictionary the endpoint returns; [None] is an absent key. *)
Record BatchCommitsResponse : Type := {
  bc_count : Z;
  bc_results : list CommitAnalysis;
  bc_statistics : option Statistics;
}.

(** [py_sum] is the built-in [sum] on a list of floats. *)
Definition analyze_commits_batch (py_sum : list float → float)
    (post : string → exn + hf_result) (commits : list string)
  : list string * (HTTPException + BatchCommitsResponse) :=
  let failed (e : exn) : HTTPException + BatchCommitsResponse :=
    inl {| status_code := 500;
           detail := "Batch analysis failed: " +:+ exn_str e |} in
  match commits with
  | [] => ([], inr {| bc_count := 0; bc_results := [];
                      bc_statistics := None |})
  | _ :: _ =>
      let run := batch_analyze_commits post commits in
      (run.1,
       match run.2 with
       | inl e => failed e
       | inr results =>
           match sentiment_labels results with
           | inl e => failed e
           | inr sentiments =>
               let types := (λ r, ct_type (commit_type r)) <$> results in
               let quality_scores := quality_score <$> results in
               match count_labels sentiments [] with
               | inl e => failed e
               | inr sentiment_dist =>
                   inr {| bc_count := Z.of_nat (length results);
                          bc_results := results;
                          bc_statistics := Some
                            {| sentiment_distribution := sentiment_dist;
                               type_distribution := count_types types;
                               average_quality_score :=
                                 match quality_scores with
                                 | [] => JInt 0
                                 | _ :: _ =>
                                     JFloat (py_sum quality_scores /
                                             float_of_int
                                               (Z.of_nat (length quality_scores)))
                                 end;
                               total_commits := Z.of_nat (length results) |} |}
               end
           end
       end)
  end.

(** [sum(d.values())] *)
Definition total {K} (d : list (K * Z)) : Z := foldr (λ kv acc, kv.2 + acc) 0 d.

(** ** A sample API *)

(** Answers in the standard shape, leaning on the word "broke". *)
Definition sample_post (text : string) : exn + hf_result :=
  if contains "broke" text then
    inr (HFScores [ {| ls_label := "LABEL_positive"; ls_score := 0.125 |};
                    {| ls_label := "negative"; ls_score := 0.75 |};
                    {| ls_label := "neutral"; ls_score := 0.125 |} ] [])
  else
    inr (HFScores [ {| ls_label := "Positive"; ls_score := 0.5 |};
                    {| ls_label := "negative"; ls_score := 0.25 |};
                    {| ls_label := "neutral"; ls_score := 0.25 |} ] []).

Definition sample_messages : list string :=
  ["add tests"; ""; "this broke"].

(** The analyses of [sample_messages] with [sample_post]. *)
Definition sample_analyses : list CommitAnalysis :=
  Eval vm_compute in
    match (batch_analyze_commits sample_post sample_messages).2 with
    | inr l => l
    | inl _ => []
    end.

(** An API that is down. *)
Definition failing_post (text : string) : exn + hf_result :=
  inl (Raise OtherException "503 Server Error: Service Unavailable").

(** An API that answers with the empty list. *)
Definition empty_post (text : string) : exn + hf_result := inr HFEmpty.

End HfModels.

(** * Properties *)

#[global] Instance exact_float_order : PyFloatOrder Q.
Proof.
  split.
  - intros x y m Hx Hy. cbn in *.
    apply negb_true_iff in Hx. apply negb_false_iff in Hy.
    apply negb_false_iff. apply Qle_bool_iff. apply Qle_bool_iff in Hy.
    apply Qlt_le_weak. eapply Qle_lt_trans; [exact Hy|].
    apply Qnot_le_lt. intros Hc. apply Qle_bool_iff in Hc. congruence.
  - intros x. cbn. apply negb_false_iff. apply Qle_bool_iff. apply Qle_refl.
Qed.

Section Facts.

Context {float : Type} `{!PyFloat float} {matrix : Type}.

Implicit Types (g : Globals float matrix) (vec : Vectorizer matrix)
  (clf : Classifier float matrix) (enc : option LabelEncoder)
  (cs : list string) (preds : list pyval) (probs : option (list (list float)))
  (rs acc : list (PredictionResult float)) (tr : list event)
  (s : BatchSummary float)
  (l label : pyval) (d : gmap pyval Z) (row : list float).

(** ** The monad *)

Lemma bind_inr {A B} (m : M A) (k : A → M B) tr (b : B) :
  bind m k = (tr, inr b) →
  ∃ t1 a t2, m = (t1, inr a) ∧ k a = (t2, inr b) ∧ tr = (t1 ++ t2)%list.
Proof.
  destruct m as [t1 [e|a]]; unfold bind; simpl; intros H; [discriminate|].
  destruct (k a) as [t2 r] eqn:E. simpl in H. inversion H; subst. eauto 10.
Qed.

Lemma bind_value {A B} (m : M A) (k : A → M B) (a : A) :
  m.2 = inr a → (bind m k).2 = (k a).2.
Proof. unfold bind. intros ->. reflexivity. Qed.

Lemma getitem_inr {A} (seq : list A) i tr (x : A) :
  getitem seq i = (tr, inr x) → seq !! i = Some x.
Proof.
  unfold getitem. destruct (seq !! i); unfold ret, raise; intros H;
    inversion H; reflexivity.
Qed.

Lemma getitem_value {A} (seq : list A) i (x : A) :
  seq !! i = Some x → getitem seq i = ([], inr x).
Proof. unfold getitem. intros ->. reflexivity. Qed.

(** Turns a successful run [H] of a [let*] chain into its first step, named
    [Hstep] with value [a], and leaves the rest of the chain in [H]. *)
Tactic Notation "invert_run" hyp(H) "as" ident(a) ident(Hstep) :=
  let t1 := fresh "t" in
  let t2 := fresh "t" in
  let Ht := fresh "Htr" in
  apply bind_inr in H; destruct H as (t1 & a & t2 & Hstep & H & Ht).

(** ** The per-row steps *)

Lemma try_predict_proba_value clf (X : matrix) :
  (try_predict_proba clf X).2 = inr (probs_of clf X).
Proof.
  unfold try_predict_proba, probs_of, try_except, bind, call.
  destruct (predict_proba clf) as [f|]; simpl; [|reflexivity].
  destruct (f X); reflexivity.
Qed.

Lemma row_sentiment_value enc label :
  (row_sentiment enc label).2 = inr (decoded enc label).
Proof.
  unfold row_sentiment, decoded, try_except, bind, call, getitem.
  destruct enc as [le|]; simpl; [|reflexivity].
  destruct (inverse_transform le [label]) as [e|[|v out]]; reflexivity.
Qed.

Lemma row_confidence_runs probs n i :
  rows_available probs n = true → (i < n)%nat →
  ∃ c, (row_confidence probs i).2 = inr c.
Proof.
  unfold rows_available, row_confidence. destruct probs as [p|]; [|eauto].
  intros [Hlen Hrows]%andb_true_iff Hi.
  apply bool_decide_eq_true in Hlen.
  destruct (p !! i) as [row|] eqn:E.
  - rewrite (getitem_value _ _ _ E). unfold bind; simpl.
    destruct row as [|x rest]; [|eauto].
    rewrite forallb_forall in Hrows. specialize (Hrows []).
    exfalso. enough (false = true) by discriminate. apply Hrows.
    apply list_elem_of_In. apply (list_elem_of_lookup_2 _ i).
    rewrite lookup_take_lt by exact Hi. exact E.
  - apply lookup_ge_None in E. lia.
Qed.

Lemma row_confidence_none i :
  row_confidence None i = ([], inr float_zero).
Proof. reflexivity. Qed.

Lemma row_confidence_some (p : list (list float)) i c :
  (row_confidence (Some p) i).2 = inr c →
  ∃ x rest, p !! i = Some (x :: rest) ∧ c = py_max_from x rest.
Proof.
  unfold row_confidence, getitem, bind.
  destruct (p !! i) as [[|x rest]|]; simpl; intros H; inversion H; eauto.
Qed.

(** ** The loop *)

Lemma predict_rows_inv enc preds probs cs :
  ∀ i acc tr rs,
    predict_rows enc preds probs i cs acc = (tr, inr rs) →
    ∃ rows, rs = (acc ++ rows)%list ∧ length rows = length cs ∧
      ∀ k text, cs !! k = Some text →
        ∃ label conf,
          preds !! (i + k)%nat = Some label ∧
          (row_confidence probs (i + k)).2 = inr conf ∧
          rows !! k = Some {| comment := text;
                              sentiment := decoded enc label;
                              confidence := conf |}.
Proof.
  induction cs as [|text rest IH]; intros i acc tr rs H; simpl in H.
  - inversion H; subst. exists []. rewrite app_nil_r.
    repeat split. intros k t Hk. rewrite lookup_nil in Hk. discriminate.
  - invert_run H as label Hlabel. invert_run H as conf Hconf.
    invert_run H as sent Hsent.
    apply getitem_inr in Hlabel.
    assert (Hs : sent = decoded enc label).
    { pose proof (row_sentiment_value enc label) as Hv. rewrite Hsent in Hv.
      simpl in Hv. congruence. }
    subst sent.
    apply IH in H as (rows & -> & Hlen & Hrows).
    eexists (_ :: rows). rewrite <- app_assoc. simpl.
    repeat split; [congruence|].
    intros [|k] txt Hk; simpl in Hk.
    + inversion Hk; subst. rewrite Nat.add_0_r.
      exists label, conf. rewrite Hconf. auto.
    + replace (i + S k)%nat with (S i + k)%nat by lia. apply Hrows, Hk.
Qed.

Lemma predict_rows_runs enc preds probs cs :
  ∀ i acc,
    (i + length cs ≤ length preds)%nat →
    rows_available probs (i + length cs) = true →
    ∃ tr rs, predict_rows enc preds probs i cs acc = (tr, inr rs).
Proof.
  induction cs as [|text rest IH]; intros i acc Hlen Hrows; simpl.
  - eauto.
  - simpl in Hlen, Hrows.
    destruct (preds !! i) as [label|] eqn:E;
      [|apply lookup_ge_None in E; lia].
    destruct (row_confidence_runs probs _ i Hrows) as [c Hc]; [lia|].
    pose proof (row_sentiment_value enc label) as Hs.
    destruct (IH (S i) (acc ++ [ {| comment := text;
                                    sentiment := decoded enc label;
                                    confidence := c |} ])%list)
      as (tr & rs & Hrun).
    { lia. } { replace (S i + length rest)%nat with (i + S (length rest))%nat by lia. exact Hrows. }
    rewrite (getitem_value _ _ _ E).
    unfold bind at 1; simpl.
    destruct (row_confidence probs i) as [tc rc]; simpl in Hc; subst rc.
    unfold bind at 1; simpl.
    destruct (row_sentiment enc label) as [ts rsent]; simpl in Hs; subst rsent.
    unfold bind; simpl. rewrite Hrun. simpl. eauto.
Qed.

(** ** The whole call *)

Lemma predict_comments_inv g cs tr s :
  predict_comments g cs = (tr, inr s) →
  ∃ vec clf X preds t rs,
    VECTORIZER g = Some vec ∧ MODEL g = Some clf ∧
    transform vec cs = inr X ∧ predict clf X = inr preds ∧
    predict_rows (LABEL_ENCODER g) preds (probs_of clf X) 0 cs [] = (t, inr rs) ∧
    s = summarize g rs.
Proof.
  unfold predict_comments.
  destruct (VECTORIZER g) as [vec|]; [|discriminate].
  destruct (MODEL g) as [clf|]; [|discriminate].
  intros H. invert_run H as X HX. invert_run H as preds Hpreds.
  invert_run H as probs Hprobs. invert_run H as rs Hrs.
  unfold call in HX, Hpreds. inversion HX; inversion Hpreds; subst.
  pose proof (try_predict_proba_value clf X) as Hp. rewrite Hprobs in Hp.
  simpl in Hp. inversion Hp; subst.
  inversion H; subst.
  eexists vec, clf, X, preds, _, rs. repeat split; eassumption.
Qed.

Lemma predict_comments_runs g cs vec clf X preds :
  VECTORIZER g = Some vec → MODEL g = Some clf →
  transform vec cs = inr X → predict clf X = inr preds →
  (length cs ≤ length preds)%nat →
  rows_available (probs_of clf X) (length cs) = true →
  ∃ tr rs,
    predict_rows (LABEL_ENCODER g) preds (probs_of clf X) 0 cs [] = (tr, inr rs) ∧
    ∃ tr', predict_comments g cs = (tr', inr (summarize g rs)).
Proof.
  intros Hv Hm Ht Hp Hlen Hrows.
  destruct (predict_rows_runs (LABEL_ENCODER g) preds (probs_of clf X) cs 0 [])
    as (tr & rs & Hrun); [simpl; lia | exact Hrows |].
  exists tr, rs. split; [exact Hrun|].
  unfold predict_comments. rewrite Hv, Hm, Ht.
  unfold bind at 1, call; simpl. rewrite Hp.
  unfold bind at 1; simpl.
  pose proof (try_predict_proba_value clf X) as Hpv.
  destruct (try_predict_proba clf X) as [tp rp]; simpl in Hpv; subst rp.
  unfold bind at 1; simpl. rewrite Hrun. unfold bind; simpl. eauto.
Qed.

(** ** The counts dictionary *)

Lemma count_step_lookup d (r : PredictionResult float) l :
  count_step d r !! l =
    if decide (sentiment r = l) then Some (default 0 (d !! l) + 1) else d !! l.
Proof.
  unfold count_step. case_decide as E.
  - subst l. apply lookup_insert_eq.
  - apply lookup_insert_ne, E.
Qed.

Lemma occurrences_cons l (r : PredictionResult float) rs :
  occurrences l (r :: rs) =
    (if decide (sentiment r = l) then 1 else 0) + occurrences l rs.
Proof.
  unfold occurrences. rewrite filter_cons.
  case_decide; simpl length; lia.
Qed.

Lemma occurrences_nonneg l rs : 0 ≤ occurrences l rs.
Proof. unfold occurrences. lia. Qed.

Lemma count_step_positive d (r : PredictionResult float) :
  positive_counts d → positive_counts (count_step d r).
Proof.
  intros Hd k v. rewrite count_step_lookup. case_decide; [|apply Hd].
  intros [= <-]. destruct (d !! k) as [w|] eqn:E; simpl; [|lia].
  apply Hd in E. lia.
Qed.

Lemma foldl_count_step_lookup rs :
  ∀ d l, positive_counts d →
    foldl count_step d rs !! l =
      let n := default 0 (d !! l) + occurrences l rs in
      if decide (n = 0) then None else Some n.
Proof.
  induction rs as [|r rs IH]; intros d l Hd; simpl.
  - unfold occurrences; simpl. rewrite Z.add_0_r.
    destruct (d !! l) as [v|] eqn:E; simpl; [|reflexivity].
    apply Hd in E. case_decide; [lia|reflexivity].
  - rewrite IH by (apply count_step_positive, Hd).
    rewrite count_step_lookup, occurrences_cons.
    case_decide; simpl; repeat case_decide; try reflexivity; try lia;
      f_equal; lia.
Qed.

Lemma sum_values_count_step d (r : PredictionResult float) :
  sum_values (count_step d r) = sum_values d + 1.
Proof.
  unfold sum_values, count_step.
  destruct (d !! sentiment r) as [v|] eqn:E; simpl.
  - rewrite <- insert_delete_eq.
    rewrite map_fold_insert_L; [|intros; lia|apply lookup_delete_eq].
    rewrite (map_fold_delete_L _ _ (sentiment r) v d); [lia|intros; lia|exact E].
  - rewrite map_fold_insert_L; [lia|intros; lia|exact E].
Qed.

Lemma sum_values_foldl rs :
  ∀ d, sum_values (foldl count_step d rs) = sum_values d + Z.of_nat (length rs).
Proof.
  induction rs as [|r rs IH]; intros d; simpl.
  - lia.
  - rewrite IH, sum_values_count_step. lia.
Qed.

(** ** [max] *)

Lemma py_max_from_in row : ∀ m, py_max_from m row ∈ m :: row.
Proof.
  induction row as [|x rest IH]; intros m; simpl.
  - apply list_elem_of_here.
  - destruct (float_gt x m).
    + apply list_elem_of_further, IH.
    + specialize (IH m). apply elem_of_cons in IH as [->|Hin].
      * apply list_elem_of_here.
      * do 2 apply list_elem_of_further. exact Hin.
Qed.

Lemma py_max_from_upper `{!PyFloatOrder float} row :
  ∀ m (seen : list float),
    (∀ y, y ∈ seen → float_gt y m = false) →
    ∀ y, y ∈ (seen ++ row)%list → float_gt y (py_max_from m row) = false.
Proof.
  induction row as [|x rest IH]; intros m seen Hseen y Hy; simpl.
  - rewrite app_nil_r in Hy. apply Hseen, Hy.
  - apply (IH _ (seen ++ [x])%list).
    + intros z Hz. apply elem_of_app in Hz as [Hz|Hz].
      * destruct (float_gt x m) eqn:E; [|apply Hseen, Hz].
        eapply float_gt_step; [exact E|apply Hseen, Hz].
      * apply list_elem_of_singleton in Hz as ->.
        destruct (float_gt x m) eqn:E; [apply float_gt_irrefl|exact E].
    + rewrite <- app_assoc. exact Hy.
Qed.

Lemma argmax_scan_lookup rest :
  ∀ (full : list float) bi best j,
    full !! bi = Some best →
    (∀ k y, rest !! k = Some y → full !! (j + k)%nat = Some y) →
    full !! argmax_scan bi best j rest = Some (py_max_from best rest).
Proof.
  induction rest as [|x rest IH]; intros full bi best j Hbest Hrest; simpl.
  - exact Hbest.
  - destruct (float_gt x best).
    + apply IH.
      * specialize (Hrest 0%nat x eq_refl). rewrite Nat.add_0_r in Hrest.
        exact Hrest.
      * intros k y Hk. replace (S j + k)%nat with (j + S k)%nat by lia.
        apply Hrest. exact Hk.
    + apply IH; [exact Hbest|].
      intros k y Hk. replace (S j + k)%nat with (j + S k)%nat by lia.
      apply Hrest. exact Hk.
Qed.

Lemma py_argmax_lookup (x : float) rest :
  (x :: rest) !! py_argmax (x :: rest) = Some (py_max_from x rest).
Proof.
  unfold py_argmax. apply argmax_scan_lookup; [reflexivity|].
  intros k y Hk. exact Hk.
Qed.

Lemma index_of_lookup (classes : list pyval) :
  ∀ j l, NoDup classes → classes !! j = Some l → index_of l classes = Some j.
Proof.
  induction classes as [|c rest IH]; intros j l Hnd Hj.
  - rewrite lookup_nil in Hj. discriminate.
  - apply NoDup_cons in Hnd as [Hc Hnd]. simpl.
    destruct j as [|j]; simpl in Hj.
    + inversion Hj; subst. rewrite decide_True by reflexivity. reflexivity.
    + rewrite decide_False.
      * rewrite (IH j l Hnd Hj). reflexivity.
      * intros ->. apply Hc. eapply list_elem_of_lookup_2. exact Hj.
Qed.

(** ** What a successful call returns, row by row *)

Lemma predict_comments_rows g cs tr s :
  predict_comments g cs = (tr, inr s) →
  ∃ vec clf X preds rs,
    VECTORIZER g = Some vec ∧ MODEL g = Some clf ∧
    transform vec cs = inr X ∧ predict clf X = inr preds ∧
    s = summarize g rs ∧ length rs = length cs ∧
    ∀ i r, rs !! i = Some r →
      ∃ text label,
        cs !! i = Some text ∧ preds !! i = Some label ∧
        comment r = text ∧
        sentiment r = decoded (LABEL_ENCODER g) label ∧
        (row_confidence (probs_of clf X) i).2 = inr (confidence r).
Proof.
  intros H.
  apply predict_comments_inv in H
    as (vec & clf & X & preds & t & rs & Hv & Hm & Ht & Hp & Hrun & ->).
  apply predict_rows_inv in Hrun as (rows & -> & Hlen & Hrows). simpl.
  exists vec, clf, X, preds, rows. repeat split; try assumption.
  intros i r Hr.
  destruct (cs !! i) as [text|] eqn:E.
  - destruct (Hrows i text E) as (label & conf & Hl & Hc & Hrow).
    simpl in Hl, Hc. rewrite Hr in Hrow. inversion Hrow; subst r.
    exists text, label. simpl. auto.
  - apply lookup_ge_None in E. apply lookup_lt_Some in Hr. lia.
Qed.

(** * Properties of [predict_comments] and of the endpoint *)

(** C1: when the vectorizer and the classifier are loaded, [transform] and
    [predict] succeed and the classifier returns a label for each row (and
    non-empty probability rows, when it returns probabilities), the call
    returns a summary whose [results] has exactly one entry per input comment,
    in input order, the i-th entry carrying the i-th comment. *)
Theorem predict_comments_results_in_order g cs vec clf X preds :
  VECTORIZER g = Some vec → MODEL g = Some clf →
  cs ≠ [] →
  transform vec cs = inr X → predict clf X = inr preds →
  (length cs ≤ length preds)%nat →
  rows_available (probs_of clf X) (length cs) = true →
  ∃ tr s, predict_comments g cs = (tr, inr s) ∧
    length (results s) = length cs ∧
    comment <$> results s = cs ∧
    ∀ i text, cs !! i = Some text → comment <$> (results s !! i) = Some text.
Proof.
  intros Hv Hm _ Ht Hp Hlen Hrows.
  destruct (predict_comments_runs g cs vec clf X preds Hv Hm Ht Hp Hlen Hrows)
    as (t & rs & _ & tr & Hrun).
  exists tr, (summarize g rs). split; [exact Hrun|].
  apply predict_comments_rows in Hrun
    as (vec' & clf' & X' & preds' & rs' & _ & _ & _ & _ & Hs & Hl & Hrs).
  rewrite Hs. simpl.
  assert (Hpt : ∀ i text, cs !! i = Some text →
                          comment <$> (rs' !! i) = Some text).
  { intros i text Hi.
    destruct (rs' !! i) as [r|] eqn:E.
    - destruct (Hrs i r E) as (text' & label & Hc & _ & Hcom & _).
      simpl. congruence.
    - apply lookup_ge_None in E. apply lookup_lt_Some in Hi. lia. }
  repeat split; [exact Hl| |exact Hpt].
  apply list_eq. intros i. rewrite list_lookup_fmap.
  destruct (cs !! i) as [text|] eqn:E; [apply Hpt, E|].
  apply lookup_ge_None in E.
  rewrite (lookup_ge_None_2 rs' i) by lia. reflexivity.
Qed.

(** C2: in every summary a successful call returns, [count] is the length of
    [results] and the sum of the values of [distribution.counts], and
    [distribution.counts] maps each sentiment label to the number of result
    entries carrying it (labels carried by no entry are not keys). *)
Theorem summary_count_invariant g cs tr s :
  predict_comments g cs = (tr, inr s) →
  count s = Z.of_nat (length (results s)) ∧
  sum_values (counts (distribution s)) = count s ∧
  ∀ l, counts (distribution s) !! l =
         if decide (occurrences l (results s) = 0) then None
         else Some (occurrences l (results s)).
Proof.
  intros H.
  apply predict_comments_inv in H
    as (vec & clf & X & preds & t & rs & _ & _ & _ & _ & _ & ->).
  simpl. repeat split.
  - unfold dist_counts. rewrite sum_values_foldl.
    unfold sum_values. rewrite map_fold_empty. lia.
  - intros l. unfold dist_counts.
    rewrite foldl_count_step_lookup.
    + rewrite lookup_empty. simpl. reflexivity.
    + intros k v Hk. rewrite lookup_empty in Hk. discriminate.
Qed.

(** C3: with the vectorizer or the classifier unset, the call raises
    [RuntimeError("Models not loaded on server")] without having called any
    artifact, and returns no summary. *)
Theorem predict_comments_unloaded g cs :
  VECTORIZER g = None ∨ MODEL g = None →
  predict_comments g cs =
    ([], inl (Raise RuntimeError "Models not loaded on server")).
Proof.
  unfold predict_comments. intros [-> | ->]; [reflexivity|].
  destruct (VECTORIZER g); reflexivity.
Qed.

(** C4: in every summary a successful call returns, [percentages] has the
    keys of [counts], and its value at a label is
    [round(counts[label] / count * 100, 1)]. *)
Theorem summary_percentages g cs tr s :
  predict_comments g cs = (tr, inr s) →
  dom (percentages (distribution s)) =@{gset pyval}
    dom (counts (distribution s)) ∧
  ∀ l, percentages (distribution s) !! l =
         (λ v, float_round (float_mul_int (int_truediv v (count s)) 100) 1)
           <$> counts (distribution s) !! l.
Proof.
  intros H.
  apply predict_comments_inv in H
    as (vec & clf & X & preds & t & rs & _ & _ & _ & _ & _ & ->).
  simpl. unfold dist_percent. split.
  - apply dom_fmap_L.
  - intros l. apply lookup_fmap.
Qed.


(** C6: when the classifier has no [predict_proba], or its [predict_proba]
    raises, the call still returns a summary (given that [transform] and
    [predict] succeed with a label for each row), and the confidence of every
    result is exactly [0.0]. *)
Theorem no_probability_output_zero_confidence g cs vec clf X preds :
  VECTORIZER g = Some vec → MODEL g = Some clf →
  transform vec cs = inr X → predict clf X = inr preds →
  (length cs ≤ length preds)%nat →
  (predict_proba clf = None ∨
   ∃ f e, predict_proba clf = Some f ∧ f X = inl e) →
  ∃ tr s, predict_comments g cs = (tr, inr s) ∧
    length (results s) = length cs ∧
    ∀ r, r ∈ results s → confidence r = float_zero.
Proof.
  intros Hv Hm Ht Hp Hlen Hno.
  assert (Hprobs : probs_of clf X = None).
  { unfold probs_of. destruct Hno as [-> | (f & e & -> & ->)]; reflexivity. }
  destruct (predict_comments_runs g cs vec clf X preds Hv Hm Ht Hp Hlen)
    as (t & rs & _ & tr & Hrun).
  { rewrite Hprobs. reflexivity. }
  exists tr, (summarize g rs). split; [exact Hrun|].
  apply predict_comments_rows in Hrun
    as (vec' & clf' & X' & preds' & rs' & Hv' & Hm' & Ht' & _ & Hs & Hl & Hrs).
  rewrite Hs. simpl. split; [exact Hl|].
  intros r Hr. apply list_elem_of_lookup_1 in Hr as [i Hi].
  destruct (Hrs i r Hi) as (text & label & _ & _ & _ & _ & Hc).
  assert (vec' = vec) by congruence. assert (clf' = clf) by congruence.
  subst. assert (X' = X) by congruence. subst.
  rewrite Hprobs in Hc. simpl in Hc. congruence.
Qed.

(** C7: with a label encoder loaded, a row whose [inverse_transform] raises
    gets the string form of its raw label as sentiment, every row whose
    [inverse_transform] returns gets the decoded value, and the call returns
    a summary all the same. *)
Theorem decoder_failure_is_per_row g cs vec clf le X preds :
  VECTORIZER g = Some vec → MODEL g = Some clf → LABEL_ENCODER g = Some le →
  transform vec cs = inr X → predict clf X = inr preds →
  (length cs ≤ length preds)%nat →
  rows_available (probs_of clf X) (length cs) = true →
  ∃ tr s, predict_comments g cs = (tr, inr s) ∧
    length (results s) = length cs ∧
    ∀ i label r, preds !! i = Some label → results s !! i = Some r →
      (∀ e, inverse_transform le [label] = inl e →
            sentiment r = PyStr (py_str label)) ∧
      (∀ v rest, inverse_transform le [label] = inr (v :: rest) →
            sentiment r = v).
Proof.
  intros Hv Hm Hle Ht Hp Hlen Hrows.
  destruct (predict_comments_runs g cs vec clf X preds Hv Hm Ht Hp Hlen Hrows)
    as (t & rs & _ & tr & Hrun).
  exists tr, (summarize g rs). split; [exact Hrun|].
  apply predict_comments_rows in Hrun
    as (vec' & clf' & X' & preds' & rs' & Hv' & Hm' & Ht' & Hp' & Hs & Hl & Hrs).
  rewrite Hs. simpl. split; [exact Hl|].
  assert (vec' = vec) by congruence. assert (clf' = clf) by congruence.
  subst vec' clf'. assert (X' = X) by congruence. subst X'.
  assert (preds' = preds) by congruence. subst preds'.
  intros i label r Hi Hr.
  destruct (Hrs i r Hr) as (text & label' & _ & Hl' & _ & Hsent & _).
  assert (label' = label) by congruence. subst label'.
  rewrite Hle in Hsent. simpl in Hsent.
  split.
  - intros e He. rewrite He in Hsent. exact Hsent.
  - intros v rest Hd. rewrite Hd in Hsent. exact Hsent.
Qed.

(** X29: when the classifier returns probabilities, the confidence of each
    row is the maximum of the row's probability distribution: it is one of
    the row's values and none of them is greater.  It is the probability of
    the row's predicted label when that label is the class of the first
    maximal column; the code does not look at which class the maximum belongs
    to. *)
Theorem confidence_is_row_maximum `{!PyFloatOrder float}
    g cs tr s vec clf X preds f p :
  VECTORIZER g = Some vec → MODEL g = Some clf →
  transform vec cs = inr X → predict clf X = inr preds →
  predict_proba clf = Some f → f X = inr p →
  predict_comments g cs = (tr, inr s) →
  ∀ i r, results s !! i = Some r →
    ∃ x rest, p !! i = Some (x :: rest) ∧
      confidence r = py_max_from x rest ∧
      confidence r ∈ x :: rest ∧
      (∀ y, y ∈ x :: rest → float_gt y (confidence r) = false) ∧
      (∀ label, preds !! i = Some label →
         NoDup (classes_ clf) →
         classes_ clf !! py_argmax (x :: rest) = Some label →
         class_probability (classes_ clf) (x :: rest) label
           = Some (confidence r)).
Proof.
  intros Hv Hm Ht Hp Hf Hfx Hrun i r Hr.
  apply predict_comments_rows in Hrun
    as (vec' & clf' & X' & preds' & rs' & Hv' & Hm' & Ht' & Hp' & Hs & Hl & Hrs).
  assert (vec' = vec) by congruence. assert (clf' = clf) by congruence.
  subst vec' clf'. assert (X' = X) by congruence. subst X'.
  subst s. simpl in Hr.
  destruct (Hrs i r Hr) as (text & label' & _ & Hl' & _ & _ & Hc).
  assert (Hprobs : probs_of clf X = Some p).
  { unfold probs_of. rewrite Hf, Hfx. reflexivity. }
  rewrite Hprobs in Hc.
  apply row_confidence_some in Hc as (x & rest & Hrow & Hmax).
  exists x, rest. rewrite Hmax. repeat split.
  - exact Hrow.
  - apply py_max_from_in.
  - intros y Hy. apply (py_max_from_upper rest x [x]).
    + intros z Hz. apply list_elem_of_singleton in Hz as ->.
      apply float_gt_irrefl.
    + exact Hy.
  - intros label _ Hnd Hcls. unfold class_probability.
    rewrite (index_of_lookup _ _ _ Hnd Hcls). apply py_argmax_lookup.
Qed.

(** C9: when no label encoder is loaded, the sentiment of each row is the
    string form [str(label)] of the row's raw predicted label; it is the label
    itself when the label is a string. *)
Theorem no_decoder_sentiment_is_str g cs tr s vec clf X preds :
  VECTORIZER g = Some vec → MODEL g = Some clf →
  transform vec cs = inr X → predict clf X = inr preds →
  LABEL_ENCODER g = None →
  predict_comments g cs = (tr, inr s) →
  ∀ i r, results s !! i = Some r →
    ∃ label, preds !! i = Some label ∧
      sentiment r = PyStr (py_str label) ∧
      (∀ text, label = PyStr text → sentiment r = label).
Proof.
  intros Hv Hm Ht Hp Hle Hrun i r Hr.
  apply predict_comments_rows in Hrun
    as (vec' & clf' & X' & preds' & rs' & Hv' & Hm' & Ht' & Hp' & Hs & Hl & Hrs).
  assert (vec' = vec) by congruence. assert (clf' = clf) by congruence.
  subst vec' clf'. assert (X' = X) by congruence. subst X'.
  assert (preds' = preds) by congruence. subst preds'.
  subst s. simpl in Hr.
  destruct (Hrs i r Hr) as (text & label & _ & Hlab & _ & Hsent & _).
  rewrite Hle in Hsent. simpl in Hsent.
  exists label. repeat split; [exact Hlab|exact Hsent|].
  intros t ->. exact Hsent.
Qed.

(** C10: for an empty [comments] list the endpoint returns exactly
    [{"count": 0, "results": []}], with no other key, whatever the state of
    the artifacts, and calls none of them. *)
Theorem analyze_comments_batch_empty g :
  analyze_comments_batch g {| comments := [] |} =
    ([], inr {| r_count := 0; r_results := []; r_distribution := None;
                r_average_confidence := None; r_model := None |}).
Proof. reflexivity. Qed.

End Facts.

(** * The properties on a concrete batch

    The sample artifacts of [Exact], run on the batch
    ["great work!"; "this broke everything"; "meh"]. *)

Lemma batch_run :
  predict_comments Exact.loaded Exact.batch =
    (Exact.batch_trace, inr (summarize Exact.loaded Exact.batch_results)).
Proof. vm_compute. reflexivity. Qed.

Lemma batch_run_no_encoder :
  predict_comments Exact.loaded_no_encoder Exact.batch =
    (Exact.batch_trace_no_encoder,
     inr (summarize Exact.loaded_no_encoder Exact.batch_results_no_encoder)).
Proof. vm_compute. reflexivity. Qed.

(** The endpoint turns the failure of an unloaded pipeline into a 500, and
    hands a summary through with its five keys. *)
Example analyze_comments_batch_unloaded :
  analyze_comments_batch Exact.unloaded {| comments := Exact.batch |} =
    ([], inl {| status_code := 500;
                detail := "Models not loaded on server" |}).
Proof. reflexivity. Qed.

Example analyze_comments_batch_loaded :
  analyze_comments_batch Exact.loaded {| comments := Exact.batch |} =
    (Exact.batch_trace,
     inr (summary_dict (summarize Exact.loaded Exact.batch_results))).
Proof. vm_compute. reflexivity. Qed.

Lemma predict_comments_results_in_order_witness :
  ∃ tr s, predict_comments Exact.loaded Exact.batch = (tr, inr s) ∧
    length (results s) = length Exact.batch ∧
    comment <$> results s = Exact.batch ∧
    ∀ i text, Exact.batch !! i = Some text →
              comment <$> (results s !! i) = Some text.
Proof.
  apply (predict_comments_results_in_order Exact.loaded Exact.batch
           Exact.length_vectorizer Exact.forest
           [11; 21; 3] [PyInt 1; PyInt 0; PyInt 2]).
  - reflexivity.
  - reflexivity.
  - discriminate.
  - reflexivity.
  - reflexivity.
  - simpl. lia.
  - reflexivity.
Defined.

Lemma summary_count_invariant_witness :
  let s := summarize Exact.loaded Exact.batch_results in
  count s = Z.of_nat (length (results s)) ∧
  sum_values (counts (distribution s)) = count s ∧
  ∀ l, counts (distribution s) !! l =
         if decide (occurrences l (results s) = 0) then None
         else Some (occurrences l (results s)).
Proof.
  apply (summary_count_invariant Exact.loaded Exact.batch Exact.batch_trace).
  vm_compute. reflexivity.
Defined.

Lemma predict_comments_unloaded_witness :
  predict_comments Exact.unloaded Exact.batch =
    ([], inl (Raise RuntimeError "Models not loaded on server")).
Proof.
  apply (predict_comments_unloaded Exact.unloaded Exact.batch).
  left. reflexivity.
Defined.

Lemma summary_percentages_witness :
  let s := summarize Exact.loaded Exact.batch_results in
  dom (percentages (distribution s)) =@{gset pyval}
    dom (counts (distribution s)) ∧
  ∀ l, percentages (distribution s) !! l =
         (λ v, float_round (float_mul_int (int_truediv v (count s)) 100) 1)
           <$> counts (distribution s) !! l.
Proof.
  apply (summary_percentages Exact.loaded Exact.batch Exact.batch_trace).
  vm_compute. reflexivity.
Defined.


Lemma no_probability_output_zero_confidence_witness :
  ∃ tr s, predict_comments Exact.loaded_bad_proba Exact.batch = (tr, inr s) ∧
    length (results s) = length Exact.batch ∧
    ∀ r, r ∈ results s → confidence r = float_zero.
Proof.
  apply (no_probability_output_zero_confidence Exact.loaded_bad_proba
           Exact.batch Exact.length_vectorizer Exact.forest_bad_proba
           [11; 21; 3] [PyInt 1; PyInt 0; PyInt 2]).
  - reflexivity.
  - reflexivity.
  - reflexivity.
  - reflexivity.
  - simpl. lia.
  - right. eexists _, _. split; reflexivity.
Defined.

Lemma decoder_failure_is_per_row_witness :
  ∃ tr s, predict_comments Exact.loaded Exact.batch = (tr, inr s) ∧
    length (results s) = length Exact.batch ∧
    ∀ i label r,
      [PyInt 1; PyInt 0; PyInt 2] !! i = Some label →
      results s !! i = Some r →
      (∀ e, inverse_transform Exact.encoder [label] = inl e →
            sentiment r = PyStr (py_str label)) ∧
      (∀ v rest, inverse_transform Exact.encoder [label] = inr (v :: rest) →
            sentiment r = v).
Proof.
  apply (decoder_failure_is_per_row Exact.loaded Exact.batch
           Exact.length_vectorizer Exact.forest Exact.encoder [11; 21; 3]).
  - reflexivity.
  - reflexivity.
  - reflexivity.
  - reflexivity.
  - reflexivity.
  - simpl. lia.
  - reflexivity.
Defined.

Lemma confidence_is_row_maximum_witness :
  let r := {| comment := "meh"; sentiment := PyStr "2";
              confidence := 0.7%Q |} in
  ∃ x rest, (Exact.proba_of <$> [11; 21; 3]) !! 2%nat = Some (x :: rest) ∧
    confidence r = py_max_from x rest ∧
    confidence r ∈ x :: rest ∧
    (∀ y, y ∈ x :: rest → float_gt y (confidence r) = false) ∧
    (∀ label, [PyInt 1; PyInt 0; PyInt 2] !! 2%nat = Some label →
       NoDup (classes_ Exact.forest) →
       classes_ Exact.forest !! py_argmax (x :: rest) = Some label →
       class_probability (classes_ Exact.forest) (x :: rest) label
         = Some (confidence r)).
Proof.
  apply (confidence_is_row_maximum (PyFloatOrder0 := exact_float_order)
           Exact.loaded Exact.batch Exact.batch_trace
           (summarize Exact.loaded Exact.batch_results)
           Exact.length_vectorizer Exact.forest [11; 21; 3]
           [PyInt 1; PyInt 0; PyInt 2]
           (λ X, inr (Exact.proba_of <$> X))
           (Exact.proba_of <$> [11; 21; 3])) with (i := 2%nat).
  - reflexivity.
  - reflexivity.
  - reflexivity.
  - reflexivity.
  - reflexivity.
  - reflexivity.
  - vm_compute. reflexivity.
  - reflexivity.
Defined.

Lemma no_decoder_sentiment_is_str_witness :
  let r := {| comment := "meh"; sentiment := PyStr "2";
              confidence := 0.7%Q |} in
  ∃ label, [PyInt 1; PyInt 0; PyInt 2] !! 2%nat = Some label ∧
    sentiment r = PyStr (py_str label) ∧
    (∀ text, label = PyStr text → sentiment r = label).
Proof.
  apply (no_decoder_sentiment_is_str Exact.loaded_no_encoder Exact.batch
           Exact.batch_trace_no_encoder
           (summarize Exact.loaded_no_encoder Exact.batch_results_no_encoder)
           Exact.length_vectorizer Exact.forest [11; 21; 3]
           [PyInt 1; PyInt 0; PyInt 2]) with (i := 2%nat).
  - reflexivity.
  - reflexivity.
  - reflexivity.
  - reflexivity.
  - reflexivity.
  - vm_compute. reflexivity.
  - reflexivity.
Defined.

(** ** Where the specification and the code part *)

(** C8, at the thresholded classifier: for the comment "meh" the classifier
    predicts "negative", to which it assigns probability 0.4; the confidence
    returned is 0.6, the probability of the other class, where the comment
    at line 149 ("take max probability for predicted class") takes the
    maximum to be the probability of the predicted class. *)
Lemma confidence_is_not_that_of_predicted_label :
  ∃ tr s r,
    predict_comments Exact.loaded_thresholded ["meh"] = (tr, inr s) ∧
    results s = [r] ∧
    predict Exact.thresholded [3] = inr [PyStr "negative"] ∧
    probs_of Exact.thresholded [3] = Some [[0.4; 0.6]%Q] ∧
    class_probability (classes_ Exact.thresholded) [0.4; 0.6]%Q
      (PyStr "negative") = Some 0.4%Q ∧
    confidence r = 0.6%Q ∧
    ¬ (confidence r == 0.4)%Q.
Proof.
  eexists _, _, _. split; [vm_compute; reflexivity|].
  repeat split. simpl. intros H. discriminate H.
Qed.

(** C9, as stated, without a label encoder: for the comment "meh" the raw
    predicted label is the integer 2, and the sentiment returned is the
    string "2". *)
Lemma raw_label_is_not_used_as_is :
  ∃ tr s r label,
    predict_comments Exact.loaded_no_encoder ["meh"] = (tr, inr s) ∧
    results s = [r] ∧
    predict Exact.forest [3] = inr [label] ∧
    label = PyInt 2 ∧
    sentiment r = PyStr "2" ∧
    sentiment r ≠ label.
Proof.
  eexists _, _, _, _. split; [vm_compute; reflexivity|].
  repeat split. simpl. discriminate.
Qed.

(** * Further properties of the pipeline and of its callers *)

Section Calls.

Context {float : Type} `{!PyFloat float} {matrix : Type}.

Implicit Types (g : Globals float matrix) (vec : Vectorizer matrix)
  (clf : Classifier float matrix) (enc : option LabelEncoder)
  (cs : list string) (preds : list pyval) (probs : option (list (list float)))
  (rs acc : list (PredictionResult float)) (tr : list event)
  (s : BatchSummary float) (label : pyval) (e : exn).

(** ** Failing steps *)

Lemma bind_inl {A B} (m : M A) (k : A → M B) tr e :
  bind m k = (tr, inl e) →
  m = (tr, inl e) ∨
  ∃ t1 a t2, m = (t1, inr a) ∧ k a = (t2, inl e) ∧ tr = (t1 ++ t2)%list.
Proof.
  destruct m as [t1 [e1|a]]; unfold bind; simpl; intros H.
  - left. congruence.
  - right. destruct (k a) as [t2 r] eqn:E. simpl in H.
    inversion H; subst. eauto 10.
Qed.

Lemma getitem_trace {A} (seq : list A) i : (getitem seq i).1 = [].
Proof. unfold getitem. destruct (seq !! i); reflexivity. Qed.

Lemma getitem_inl {A} (seq : list A) i tr e :
  getitem seq i = (tr, inl e) →
  seq !! i = None ∧ tr = [] ∧ exn_cls e = IndexError.
Proof.
  unfold getitem. destruct (seq !! i); unfold ret, raise; intros H;
    inversion H; subst; auto.
Qed.

Lemma row_confidence_trace probs i : (row_confidence probs i).1 = [].
Proof.
  unfold row_confidence. destruct probs as [p|]; [|reflexivity].
  unfold bind, getitem. destruct (p !! i) as [[|x rest]|]; reflexivity.
Qed.

Lemma row_confidence_inl probs i tr e :
  row_confidence probs i = (tr, inl e) →
  exn_cls e = IndexError ∨ exn_cls e = ValueError.
Proof.
  unfold row_confidence. destruct probs as [p|]; [|discriminate].
  unfold bind, getitem. destruct (p !! i) as [[|x rest]|]; simpl;
    intros H; inversion H; subst; auto.
Qed.

Lemma row_sentiment_trace enc label :
  (row_sentiment enc label).1 = decoder_calls enc [label].
Proof.
  unfold row_sentiment, decoder_calls, try_except, bind, call, getitem.
  destruct enc as [le|]; simpl; [|reflexivity].
  destruct (inverse_transform le [label]) as [e|[|v out]]; reflexivity.
Qed.

Lemma try_predict_proba_trace clf (X : matrix) :
  (try_predict_proba clf X).1 = proba_calls clf.
Proof.
  unfold try_predict_proba, proba_calls, try_except, bind, call.
  destruct (predict_proba clf) as [f|]; simpl; [|reflexivity].
  destruct (f X); reflexivity.
Qed.

Lemma decoder_calls_cons enc label (labels : list pyval) :
  decoder_calls enc (label :: labels) =
    (decoder_calls enc [label] ++ decoder_calls enc labels)%list.
Proof. unfold decoder_calls. destruct enc; reflexivity. Qed.

Lemma predict_rows_trace enc preds probs cs :
  ∀ i acc tr rs,
    predict_rows enc preds probs i cs acc = (tr, inr rs) →
    tr = decoder_calls enc (take (length cs) (drop i preds)).
Proof.
  induction cs as [|text rest IH]; intros i acc tr rs H; simpl in H.
  - inversion H; subst. unfold decoder_calls. destruct enc; reflexivity.
  - apply bind_inr in H as (t1 & label & t2 & Hlabel & H & ->).
    apply bind_inr in H as (t3 & conf & t4 & Hconf & H & ->).
    apply bind_inr in H as (t5 & sent & t6 & Hsent & H & ->).
    pose proof (getitem_trace preds i) as T1. rewrite Hlabel in T1.
    pose proof (row_confidence_trace probs i) as T3. rewrite Hconf in T3.
    pose proof (row_sentiment_trace enc label) as T5. rewrite Hsent in T5.
    simpl in T1, T3, T5. subst t1 t3 t5.
    apply getitem_inr in Hlabel. apply IH in H as ->.
    rewrite (drop_S _ _ _ Hlabel). simpl.
    symmetry. apply decoder_calls_cons.
Qed.

Lemma predict_rows_inl enc preds probs cs :
  ∀ i acc tr e,
    predict_rows enc preds probs i cs acc = (tr, inl e) →
    exn_cls e = IndexError ∨ exn_cls e = ValueError.
Proof.
  induction cs as [|text rest IH]; intros i acc tr e H; simpl in H.
  - discriminate.
  - apply bind_inl in H as [H | (t1 & label & t2 & _ & H & _)].
    { apply getitem_inl in H as (_ & _ & ->). auto. }
    apply bind_inl in H as [H | (t3 & conf & t4 & _ & H & _)].
    { eapply row_confidence_inl, H. }
    apply bind_inl in H as [H | (t5 & sent & t6 & _ & H & _)].
    { pose proof (row_sentiment_value enc label) as Hv. rewrite H in Hv.
      discriminate. }
    eapply IH, H.
Qed.

Lemma predict_rows_short enc preds probs cs :
  ∀ i acc,
    (i ≤ length preds < i + length cs)%nat →
    rows_available probs (length preds) = true →
    ∃ tr e, predict_rows enc preds probs i cs acc = (tr, inl e) ∧
            exn_cls e = IndexError.
Proof.
  induction cs as [|text rest IH]; intros i acc Hlen Hrows; simpl in *.
  - lia.
  - destruct (preds !! i) as [label|] eqn:E.
    + assert (Hi : (i < length preds)%nat) by (eapply lookup_lt_Some, E).
      destruct (row_confidence_runs probs _ i Hrows Hi) as [c Hc].
      pose proof (row_sentiment_value enc label) as Hs.
      destruct (IH (S i) (acc ++ [ {| comment := text;
                                      sentiment := decoded enc label;
                                      confidence := c |} ])%list)
        as (tr & e & Hrun & He); [lia | exact Hrows |].
      rewrite (getitem_value _ _ _ E).
      unfold bind at 1; simpl.
      destruct (row_confidence probs i) as [tc rc]; simpl in Hc; subst rc.
      unfold bind at 1; simpl.
      destruct (row_sentiment enc label) as [ts rsent]; simpl in Hs;
        subst rsent.
      unfold bind; simpl. rewrite Hrun. simpl. eauto.
    + unfold getitem. rewrite E. unfold bind, raise; simpl. eauto.
Qed.

(** ** Extra properties of [predict_comments] *)

(** X1: a call that returns a summary has called [transform] once, on the
    whole batch, then [predict] once, then [predict_proba] once if the
    classifier has it, then, if a label encoder is loaded,
    [inverse_transform] once per comment, in input order, each time on the
    one-element list of that row's label; it has made no other call. *)
Theorem predict_comments_calls g cs tr s vec clf X preds :
  VECTORIZER g = Some vec → MODEL g = Some clf →
  transform vec cs = inr X → predict clf X = inr preds →
  predict_comments g cs = (tr, inr s) →
  tr = ([EvTransform cs; EvPredict] ++ proba_calls clf ++
        decoder_calls (LABEL_ENCODER g) (take (length cs) preds))%list.
Proof.
  intros Hv Hm Ht Hp H. unfold predict_comments in H. rewrite Hv, Hm in H.
  apply bind_inr in H as (t1 & X' & t2 & HX & H & ->).
  apply bind_inr in H as (t3 & preds' & t4 & Hpreds & H & ->).
  apply bind_inr in H as (t5 & probs & t6 & Hprobs & H & ->).
  apply bind_inr in H as (t7 & rs & t8 & Hrs & H & ->).
  unfold call in HX, Hpreds. rewrite Ht in HX. inversion HX; subst t1 X'.
  rewrite Hp in Hpreds. inversion Hpreds; subst t3 preds'.
  pose proof (try_predict_proba_trace clf X) as T5. rewrite Hprobs in T5.
  simpl in T5. subst t5.
  apply predict_rows_trace in Hrs. rewrite drop_0 in Hrs. subst t7.
  inversion H; subst. rewrite app_nil_r. reflexivity.
Qed.

(** X2: a call that fails has one of four causes, and none other: an artifact
    is not loaded (nothing was called); [transform] raised (the exception is
    passed on as it is, [predict] was not called); [predict] raised (passed
    on as it is, no further call); or the classifier returned too few
    labels, too few probability rows or an empty probability row, which ends
    in an [IndexError] or a [ValueError].  An exception of [predict_proba] or
    of [inverse_transform] never leaves the call. *)
Theorem predict_comments_failure_cases g cs tr e :
  predict_comments g cs = (tr, inl e) →
  ((VECTORIZER g = None ∨ MODEL g = None) ∧ tr = [] ∧
   e = Raise RuntimeError "Models not loaded on server") ∨
  ∃ vec clf, VECTORIZER g = Some vec ∧ MODEL g = Some clf ∧
    ((transform vec cs = inl e ∧ tr = [EvTransform cs]) ∨
     ∃ X, transform vec cs = inr X ∧
       ((predict clf X = inl e ∧ tr = [EvTransform cs; EvPredict]) ∨
        ∃ preds, predict clf X = inr preds ∧
          (exn_cls e = IndexError ∨ exn_cls e = ValueError) ∧
          ((length preds < length cs)%nat ∨
           rows_available (probs_of clf X) (length cs) = false))).
Proof.
  intros H. pose proof H as Hrun. unfold predict_comments in H.
  destruct (VECTORIZER g) as [vec|] eqn:Hv;
    [|left; inversion H; subst; auto].
  destruct (MODEL g) as [clf|] eqn:Hm;
    [|left; inversion H; subst; auto].
  right. exists vec, clf. split; [reflexivity|]. split; [reflexivity|].
  unfold call in H.
  apply bind_inl in H as [H | (t1 & X & t2 & HX & H & ->)].
  { left. inversion H; subst. auto. }
  right. exists X. inversion HX; subst t1. split; [reflexivity|].
  apply bind_inl in H as [H | (t3 & preds & t4 & Hp & H & ->)].
  { left. inversion H; subst. auto. }
  right. exists preds. inversion Hp; subst t3. split; [reflexivity|].
  split.
  - apply bind_inl in H as [H | (t5 & probs & t6 & _ & H & _)].
    { pose proof (try_predict_proba_value clf X) as Hpv. rewrite H in Hpv.
      discriminate. }
    apply bind_inl in H as [H | (t7 & rs & t8 & _ & H & _)].
    + eapply predict_rows_inl, H.
    + discriminate.
  - destruct (decide (length cs ≤ length preds)%nat) as [Hlen|Hlen];
      [|left; lia].
    destruct (rows_available (probs_of clf X) (length cs)) eqn:Hrows;
      [|right; reflexivity].
    exfalso.
    destruct (predict_comments_runs g cs vec clf X preds)
      as (t & rs & _ & tr' & Hok);
      [assumption | assumption | congruence | congruence | assumption
      | assumption |].
    rewrite Hok in Hrun. discriminate.
Qed.

(** X3: when the classifier returns fewer labels than there are comments
    (its probability rows, if any, being in order for the labels it did
    return), the whole call fails with an [IndexError]: no summary for the
    rows that did have a label. *)
Theorem predict_comments_too_few_labels g cs vec clf X preds :
  VECTORIZER g = Some vec → MODEL g = Some clf →
  transform vec cs = inr X → predict clf X = inr preds →
  (length preds < length cs)%nat →
  rows_available (probs_of clf X) (length preds) = true →
  ∃ tr e, predict_comments g cs = (tr, inl e) ∧ exn_cls e = IndexError.
Proof.
  intros Hv Hm Ht Hp Hlen Hrows.
  destruct (predict_rows_short (LABEL_ENCODER g) preds (probs_of clf X) cs 0 [])
    as (tr & e & Hrun & He); [simpl; lia | exact Hrows |].
  unfold predict_comments. rewrite Hv, Hm, Ht.
  unfold bind at 1, call; simpl. rewrite Hp.
  unfold bind at 1; simpl.
  pose proof (try_predict_proba_value clf X) as Hpv.
  destruct (try_predict_proba clf X) as [tp rp]; simpl in Hpv; subst rp.
  unfold bind at 1; simpl. rewrite Hrun. unfold bind; simpl. eauto.
Qed.

(** X4: the [model] field of a returned summary is never null: it is the
    class name of the loaded classifier. *)
Theorem predict_comments_model_name g cs tr s :
  predict_comments g cs = (tr, inr s) →
  ∃ clf, MODEL g = Some clf ∧ model s = Some (class_name clf).
Proof.
  intros H.
  apply predict_comments_inv in H
    as (vec & clf & X & preds & t & rs & _ & Hm & _ & _ & _ & ->).
  exists clf. simpl. rewrite Hm. auto.
Qed.

(** X5: called on the empty batch with both artifacts loaded, [transform] and
    [predict] succeeding, the call returns the summary with count 0, no
    result, no label in either distribution dictionary and average confidence
    0.0, whatever [predict] and [predict_proba] return; no division by zero
    occurs and the label encoder is not called. *)
Theorem predict_comments_empty_batch g vec clf X preds :
  VECTORIZER g = Some vec → MODEL g = Some clf →
  transform vec [] = inr X → predict clf X = inr preds →
  predict_comments g [] =
    (([EvTransform []; EvPredict] ++ proba_calls clf)%list,
     inr {| count := 0; results := [];
            distribution := {| counts := ∅; percentages := ∅ |};
            average_confidence := float_zero;
            model := Some (class_name clf) |}).
Proof.
  intros Hv Hm Ht Hp. unfold predict_comments. rewrite Hv, Hm, Ht.
  unfold bind at 1, call; simpl. rewrite Hp.
  unfold bind at 1; simpl.
  pose proof (try_predict_proba_value clf X) as Hpv.
  pose proof (try_predict_proba_trace clf X) as Hpt.
  destruct (try_predict_proba clf X) as [tp rp]; simpl in Hpv, Hpt; subst.
  unfold bind, ret; simpl. rewrite app_nil_r.
  unfold summarize, dist_percent, dist_counts, avg_conf; simpl.
  rewrite Hm, fmap_empty. reflexivity.
Qed.

(** ** Extra properties of [analyze_comments_batch] *)

(** X6: when the endpoint raises, it raises an [HTTPException] with status
    500 whose detail is the message of the exception [predict_comments]
    raised on the same, non-empty, batch. *)
Theorem analyze_comments_batch_failure g (payload : BatchCommentsRequest) tr
    (h : HTTPException) :
  analyze_comments_batch g payload = (tr, inl h) →
  comments payload ≠ [] ∧ status_code h = 500 ∧
  ∃ e, predict_comments g (comments payload) = (tr, inl e) ∧
       detail h = exn_str e.
Proof.
  unfold analyze_comments_batch. destruct (comments payload) as [|c cs] eqn:E.
  - simpl. intros H. discriminate.
  - destruct (predict_comments g (c :: cs)) as [t [e|s]] eqn:Hrun;
      unfold bind; simpl; intros H.
    + split; [discriminate|].
      destruct (exn_cls e); inversion H; subst; simpl; eauto.
    + discriminate.
Qed.

(** X7: when the endpoint returns for a non-empty batch, the dictionary is
    the summary of [predict_comments] with all five keys, its count is the
    number of comments, hence positive, and its average confidence is the
    mean over the results: the guard against a zero count is not what yields
    it. *)
Theorem analyze_comments_batch_success g (payload : BatchCommentsRequest) tr
    (resp : ResponseDict float) :
  comments payload ≠ [] →
  analyze_comments_batch g payload = (tr, inr resp) →
  ∃ s, predict_comments g (comments payload) = (tr, inr s) ∧
    resp = summary_dict s ∧
    r_count resp = Z.of_nat (length (comments payload)) ∧
    0 < r_count resp ∧
    r_average_confidence resp = Some (mean (confidence <$> r_results resp)).
Proof.
  unfold analyze_comments_batch. destruct (comments payload) as [|c cs] eqn:E.
  - intros Hne. congruence.
  - intros _.
    destruct (predict_comments g (c :: cs)) as [t [e|s]] eqn:Hrun;
      unfold bind; simpl; intros H.
    + destruct (exn_cls e); discriminate.
    + inversion H; subst. rewrite app_nil_r. exists s.
      split; [reflexivity|]. split; [reflexivity|].
      apply predict_comments_rows in Hrun
        as (vec & clf & X & preds & rs & _ & _ & _ & _ & -> & Hl & _).
      simpl. rewrite Hl. simpl.
      split; [reflexivity|]. split; [lia|].
      unfold avg_conf, mean. rewrite length_fmap, Hl.
      rewrite decide_False by (simpl; lia). reflexivity.
Qed.

End Calls.

Section Callers.

Context {float : Type} `{!PyFloat float} {matrix : Type}.

Implicit Types (g : Globals float matrix) (dir : ModelDir float matrix)
  (cs : list string) (tr : list event) (s : BatchSummary float) (e : exn)
  (info : VideoInfo) (payload : AnalyzeVideoRequest)
  (ydl : string → exn + VideoInfo).

(** ** [load_models] *)

(** X8: after [load_models] on unset globals, the vectorizer is set exactly
    when its pickle loads; the classifier is set exactly when its pickle loads
    and the vectorizer file did not raise; the label encoder is set exactly
    when its pickle loads and neither earlier file raised.  A file that raises
    thus keeps the artifacts after it from loading. *)
Theorem load_models_from_unset dir :
  (∀ v, VECTORIZER (load_models unset dir) = Some v ↔
        tfidf_vectorizer_pkl dir = Pickled v) ∧
  (∀ m, MODEL (load_models unset dir) = Some m ↔
        random_forest_pkl dir = Pickled m ∧
        ∀ e, tfidf_vectorizer_pkl dir ≠ Unreadable e) ∧
  (∀ le, LABEL_ENCODER (load_models unset dir) = Some le ↔
        label_encoder_pkl dir = Pickled le ∧
        (∀ e, tfidf_vectorizer_pkl dir ≠ Unreadable e) ∧
        (∀ e, random_forest_pkl dir ≠ Unreadable e)).
Proof.
  unfold load_models, unset.
  destruct (tfidf_vectorizer_pkl dir) as [|v0|e0];
    destruct (random_forest_pkl dir) as [|m0|e1];
    destruct (label_encoder_pkl dir) as [|l0|e2]; simpl;
    repeat match goal with
    | |- _ ∧ _ => split
    | |- _ ↔ _ => split
    | |- ∀ _, _ => intro
    | H : _ ∧ _ |- _ => destruct H
    | H : ∀ e, Unreadable ?e0 ≠ Unreadable e |- _ =>
        exfalso; apply (H e0); reflexivity
    end; simplify_eq; done.
Qed.

Lemma load_models_from_unset_aux dir :
  (∀ v, VECTORIZER (load_models unset dir) = Some v →
        tfidf_vectorizer_pkl dir = Pickled v) ∧
  (∀ m, MODEL (load_models unset dir) = Some m →
        random_forest_pkl dir = Pickled m).
Proof.
  unfold load_models, unset.
  destruct (tfidf_vectorizer_pkl dir) as [|v0|e0];
    destruct (random_forest_pkl dir) as [|m0|e1];
    destruct (label_encoder_pkl dir) as [|l0|e2]; simpl;
    split; intros; simplify_eq; done.
Qed.

(** X9: if the vectorizer pickle or the classifier pickle is missing or does
    not load, every call of [predict_comments] after [load_models] raises
    "Models not loaded on server" without calling anything, even when the
    other pickles are in place. *)
Theorem predict_comments_after_failed_load dir cs :
  (∀ v, tfidf_vectorizer_pkl dir ≠ Pickled v) ∨
  (∀ m, random_forest_pkl dir ≠ Pickled m) →
  predict_comments (load_models unset dir) cs =
    ([], inl (Raise RuntimeError "Models not loaded on server")).
Proof.
  intros H. unfold predict_comments.
  destruct (VECTORIZER (load_models unset dir)) as [v|] eqn:Hv;
    [|reflexivity].
  destruct (MODEL (load_models unset dir)) as [m|] eqn:Hm; [|reflexivity].
  exfalso.
  destruct (load_models_from_unset_aux dir) as (HV & HM).
  apply HV in Hv. apply HM in Hm.
  destruct H as [H|H]; [eapply H, Hv | eapply H, Hm].
Qed.

(** ** [analyze_video] *)



(** X11: when the response of [analyze_video] carries a distribution, the
    pipeline was run on the extracted texts, of which there was at least one;
    [analyzed] is their number, [sample_results] is the first 20 results only,
    while the distribution and the average confidence are those of the whole
    batch. *)
Theorem analyze_video_analysis ydl g payload tr (res : VideoResult float)
    (ca : CommentsAnalysis float) (d : Distribution float) :
  analyze_video ydl g payload = (tr, inr res) →
  v_comments_analysis res = Some ca → ca_distribution ca = Some d →
  ∃ info s,
    ydl (video_url payload) = inr info ∧
    comments_texts info payload ≠ [] ∧
    predict_comments g (comments_texts info payload) = (tr, inr s) ∧
    d = distribution s ∧
    ca_analyzed ca = Z.of_nat (length (comments_texts info payload)) ∧
    ca_sample_results ca = Some (take 20 (results s)) ∧
    ca_average_confidence ca = Some (mean (confidence <$> results s)).
Proof.
  unfold analyze_video. intros H Hca Hd.
  destruct (ydl (video_url payload)) as [e|info]; [discriminate|].
  destruct (analyze_comments payload) as [[|]|];
    [|inversion H; subst; discriminate..].
  destruct (comments_texts info payload) as [|c cs] eqn:E.
  { inversion H; subst. simpl in Hca. inversion Hca; subst.
    simpl in Hd. discriminate. }
  destruct (predict_comments g (c :: cs)) as [t [e|s]] eqn:Hrun; simpl in H.
  { destruct (exn_cls e); inversion H; subst; simpl in Hca;
      inversion Hca; subst; simpl in Hd; discriminate. }
  inversion H; subst. simpl in Hca. inversion Hca; subst. simpl in Hd.
  inversion Hd; subst.
  exists info, s. rewrite E. split; [reflexivity|]. split; [discriminate|].
  split; [exact Hrun|]. split; [reflexivity|].
  apply predict_comments_rows in Hrun
    as (vec & clf & X & preds & rs & _ & _ & _ & _ & -> & Hl & _).
  simpl. rewrite Hl. split; [reflexivity|]. split; [reflexivity|].
  unfold avg_conf, mean. rewrite length_fmap, Hl.
  rewrite decide_False by (simpl; lia). reflexivity.
Qed.

(** X12: with the vectorizer or the classifier unset, [analyze_video] with
    comment analysis requested does not fail: it answers with the video's
    fields and a [comments_analysis] whose [analyzed] is 0 and which has no
    distribution, no average and no sample, and it calls no artifact. *)
Theorem analyze_video_models_unloaded ydl g payload info :
  ydl (video_url payload) = inr info →
  analyze_comments payload = Some true →
  VECTORIZER g = None ∨ MODEL g = None →
  ∃ ca, analyze_video ydl g payload = ([], inr (video_result info (Some ca))) ∧
    ca_analyzed ca = 0 ∧ ca_distribution ca = None ∧
    ca_average_confidence ca = None ∧ ca_sample_results ca = None.
Proof.
  intros Hy Ha Hg. unfold analyze_video. rewrite Hy, Ha.
  destruct (comments_texts info payload) as [|c cs]; [eexists; eauto|].
  assert (Hrun : predict_comments g (c :: cs) =
                 ([], inl (Raise RuntimeError "Models not loaded on server"))).
  { unfold predict_comments. destruct Hg as [-> | ->]; [reflexivity|].
    destruct (VECTORIZER g); reflexivity. }
  rewrite Hrun. simpl. eexists. eauto.
Qed.

(** X13: an exception of the pipeline that is not a [RuntimeError] (one that
    [transform] or [predict] raised, or the [IndexError] or [ValueError] of a
    short output) is not handled by [analyze_video]: it leaves the endpoint as
    it is, where [analyze_comments_batch] turns it into a 500. *)
Theorem analyze_video_uncaught ydl g payload info tr e :
  ydl (video_url payload) = inr info →
  analyze_comments payload = Some true →
  comments_texts info payload ≠ [] →
  predict_comments g (comments_texts info payload) = (tr, inl e) →
  exn_cls e ≠ RuntimeError →
  analyze_video ydl g payload = (tr, inl (Uncaught e)) ∧
  ∃ h, analyze_comments_batch g {| comments := comments_texts info payload |}
         = (tr, inl h) ∧ status_code h = 500.
Proof.
  intros Hy Ha Hne Hrun Hcls. split.
  - unfold analyze_video. rewrite Hy, Ha.
    destruct (comments_texts info payload) as [|c cs]; [congruence|].
    rewrite Hrun. simpl. destruct (exn_cls e); congruence.
  - unfold analyze_comments_batch. simpl.
    destruct (comments_texts info payload) as [|c cs]; [congruence|].
    rewrite Hrun. unfold bind; simpl.
    destruct (exn_cls e); eexists; split; reflexivity.
Qed.

(** X14: the only [HTTPException] [analyze_video] raises is the 400 for a
    failed [extract_info], with that exception's message as detail and before
    any artifact is called. *)
Theorem analyze_video_http_error ydl g payload tr (h : HTTPException) :
  analyze_video ydl g payload = (tr, inl (HttpError h)) →
  tr = [] ∧ status_code h = 400 ∧
  ∃ e, ydl (video_url payload) = inl e ∧ detail h = exn_str e.
Proof.
  unfold analyze_video. intros H.
  destruct (ydl (video_url payload)) as [e|info].
  - inversion H; subst. simpl. eauto.
  - exfalso.
    destruct (analyze_comments payload) as [[|]|]; try discriminate.
    destruct (comments_texts info payload) as [|c cs]; [discriminate|].
    destruct (predict_comments g (c :: cs)) as [t [e|s]]; simpl in H;
      [|discriminate].
    destruct (exn_cls e); discriminate.
Qed.

End Callers.

(** * Properties of the commit analysis *)

Section CommitFacts.

Import HfModels.
Import PrimFloat.

#[local] Set Warnings "-inexact-float".

Implicit Types (post : string → exn + hf_result) (msg text hay : string)
  (scores : list (string * Z)).

(** ** Strings *)

Lemma prefix_app_l (a b : string) : ∀ hay,
  String.prefix (a +:+ b) hay = true → String.prefix a hay = true.
Proof.
  induction a as [|c a IH]; intros hay H.
  - destruct hay; reflexivity.
  - destruct hay as [|d hay]; simpl in *; [discriminate|].
    destruct (Ascii.ascii_dec c d); [apply IH, H|discriminate].
Qed.

Lemma contains_app_l (a b : string) : ∀ hay,
  contains (a +:+ b) hay = true → contains a hay = true.
Proof.
  induction hay as [|d hay IH]; cbn [contains].
  - rewrite !orb_false_r. apply prefix_app_l.
  - rewrite !orb_true_iff. intros [H|H].
    + left. eapply prefix_app_l, H.
    + right. apply IH, H.
Qed.

Lemma lower_char_space (c : ascii) : is_space (lower_char c) = is_space c.
Proof. destruct c as [[] [] [] [] [] [] [] []]; reflexivity. Qed.

Lemma lower_upper_char (c : ascii) : lower_char (upper_char c) = lower_char c.
Proof. destruct c as [[] [] [] [] [] [] [] []]; reflexivity. Qed.

Lemma lower_lower_char (c : ascii) : lower_char (lower_char c) = lower_char c.
Proof. destruct c as [[] [] [] [] [] [] [] []]; reflexivity. Qed.

Lemma lower_upper msg : lower (upper msg) = lower msg.
Proof.
  unfold lower, upper. induction msg as [|c msg IH]; simpl; [reflexivity|].
  rewrite lower_upper_char, IH. reflexivity.
Qed.

Lemma lower_lower msg : lower (lower msg) = lower msg.
Proof.
  unfold lower. induction msg as [|c msg IH]; simpl; [reflexivity|].
  rewrite lower_lower_char, IH. reflexivity.
Qed.

Lemma is_blank_lower msg : is_blank (lower msg) = is_blank msg.
Proof.
  unfold lower. induction msg as [|c msg IH]; simpl; [reflexivity|].
  rewrite lower_char_space, IH. reflexivity.
Qed.

(** A word that does not start with white space does not occur in a blank
    string. *)
Lemma blank_contains (c : ascii) (k : string) : ∀ hay,
  is_space c = false → is_blank hay = true →
  contains (String c k) hay = false.
Proof.
  induction hay as [|d hay IH]; intros Hc Hb; [reflexivity|].
  cbn [is_blank] in Hb. apply andb_true_iff in Hb as [Hd Hb].
  cbn [contains String.prefix].
  destruct (Ascii.ascii_dec c d) as [->|_]; [congruence|].
  simpl. apply IH; assumption.
Qed.

(** ** The scores *)

Lemma keyword_score_bounds hay (keywords : list string) :
  0 ≤ keyword_score hay keywords ≤ Z.of_nat (length keywords).
Proof.
  unfold keyword_score.
  pose proof (length_filter (λ k, contains k hay) keywords). lia.
Qed.

Lemma keyword_score_zero hay (keywords : list string) :
  keyword_score hay keywords = 0 ↔
  ∀ k, k ∈ keywords → contains k hay = false.
Proof.
  unfold keyword_score. split.
  - intros H k Hk.
    destruct (contains k hay) eqn:E; [|reflexivity]. exfalso.
    assert (Hin : k ∈ filter (λ k, contains k hay) keywords).
    { apply list_elem_of_filter. split; [rewrite E; exact I|exact Hk]. }
    destruct (filter (λ k, contains k hay) keywords);
      [inversion Hin | simpl in H; lia].
  - intros H.
    destruct (filter (λ k, contains k hay) keywords) as [|k l] eqn:E;
      [reflexivity|exfalso].
    assert (Hin : k ∈ filter (λ k, contains k hay) keywords)
      by (rewrite E; apply list_elem_of_here).
    apply list_elem_of_filter in Hin as [Hc Hk].
    rewrite (H k Hk) in Hc. exact Hc.
Qed.

(** Each entry of [scores] is the score of its type's keywords. *)
Lemma scores_of_entry hay (p : string * Z) :
  p ∈ scores_of hay ↔
  ∃ keywords, (p.1, keywords) ∈ classifiers ∧
              p.2 = keyword_score hay keywords.
Proof.
  unfold scores_of. rewrite list_elem_of_fmap. split.
  - intros ([t kws] & -> & Hin). exists kws. auto.
  - intros (kws & Hin & Hp). exists (p.1, kws). destruct p; simpl in *.
    subst. auto.
Qed.

Lemma keywords_of_classifiers (t : string) (keywords : list string) :
  (t, keywords) ∈ classifiers → keywords_of t classifiers = keywords.
Proof.
  unfold classifiers. intros H.
  repeat (apply elem_of_cons in H as [H|H];
          [inversion H; subst; reflexivity|]).
  inversion H.
Qed.

Lemma classifiers_at_most_five (t : string) (keywords : list string) :
  (t, keywords) ∈ classifiers →
  (1 ≤ length keywords ≤ 5)%nat ∧ t ≠ "other".
Proof.
  unfold classifiers. intros H.
  repeat (apply elem_of_cons in H as [H|H];
          [inversion H; subst; simpl; split; [lia|discriminate]|]).
  inversion H.
Qed.

(** ** The two maxima *)

Lemma max_value_from_spec (rest : list Z) : ∀ first,
  max_value_from first rest ∈ first :: rest ∧
  ∀ x, x ∈ first :: rest → x ≤ max_value_from first rest.
Proof.
  unfold max_value_from.
  induction rest as [|y rest IH]; intros first; simpl.
  - split; [apply list_elem_of_here|].
    intros x Hx. apply list_elem_of_singleton in Hx. lia.
  - destruct (IH (if first <? y then y else first)) as [Hin Hmax].
    assert (Hb : (if first <? y then y else first) = y ∧ first ≤ y ∨
                 (if first <? y then y else first) = first ∧ y ≤ first).
    { destruct (Z.ltb_spec first y); [left|right]; split; auto; lia. }
    pose proof (Hmax _ (list_elem_of_here _ _)) as Hbm.
    split.
    + apply elem_of_cons in Hin as [Hin|Hin].
      * rewrite Hin. destruct Hb as [[-> _]|[-> _]].
        -- apply list_elem_of_further, list_elem_of_here.
        -- apply list_elem_of_here.
      * do 2 apply list_elem_of_further. exact Hin.
    + intros x Hx.
      apply elem_of_cons in Hx as [->|Hx];
        [destruct Hb as [[E ?]|[E ?]]; rewrite E in *; lia|].
      apply elem_of_cons in Hx as [->|Hx];
        [destruct Hb as [[E ?]|[E ?]]; rewrite E in *; lia|].
      apply Hmax, list_elem_of_further, Hx.
Qed.

(** [max_type_from] returns the first entry of greatest score: the entries
    before it score less, the entries after it do not score more. *)
Lemma max_type_from_spec (rest : list (string * Z)) :
  ∀ (l1 : list (string * Z)) best mid,
    (∀ p, p ∈ l1 → p.2 < best.2) →
    (∀ p, p ∈ mid → p.2 ≤ best.2) →
    ∃ l1' l2',
      (l1 ++ best :: mid ++ rest = l1' ++ max_type_from best rest :: l2')%list ∧
      (∀ p, p ∈ l1' → p.2 < (max_type_from best rest).2) ∧
      (∀ p, p ∈ l2' → p.2 ≤ (max_type_from best rest).2).
Proof.
  induction rest as [|x rest IH]; intros l1 best mid H1 H2; simpl.
  - exists l1, mid. rewrite app_nil_r. auto.
  - destruct (best.2 <? x.2) eqn:E.
    + apply Z.ltb_lt in E.
      destruct (IH (l1 ++ best :: mid)%list x []) as (l1' & l2' & Heq & Ha & Hb).
      * intros p Hp. apply elem_of_app in Hp as [Hp|Hp].
        -- specialize (H1 p Hp). lia.
        -- apply elem_of_cons in Hp as [->|Hp]; [lia|].
           specialize (H2 p Hp). lia.
      * intros p Hp. inversion Hp.
      * exists l1', l2'. split; [|auto].
        rewrite <- Heq. rewrite <- !app_assoc. reflexivity.
    + apply Z.ltb_ge in E.
      destruct (IH l1 best (mid ++ [x])%list) as (l1' & l2' & Heq & Ha & Hb).
      * exact H1.
      * intros p Hp. apply elem_of_app in Hp as [Hp|Hp]; [apply H2, Hp|].
        apply list_elem_of_singleton in Hp as ->. lia.
      * exists l1', l2'. split; [|auto].
        rewrite <- Heq. rewrite <- !app_assoc. reflexivity.
Qed.

(** ** The two outcomes of [classify_commit_type] *)

Lemma classify_commit_type_none msg :
  (∀ p, p ∈ scores_of (lower msg) → p.2 = 0) →
  classify_commit_type msg = other.
Proof.
  intros H. unfold classify_commit_type.
  destruct (scores_of (lower msg)) as [|first rest] eqn:E; [reflexivity|].
  destruct (max_value_from_spec (snd <$> rest) first.2) as [Hin _].
  rewrite decide_True; [reflexivity|].
  change (first.2 :: (snd <$> rest)) with (snd <$> (first :: rest)) in Hin.
  apply list_elem_of_fmap in Hin as (p & -> & Hp). apply H, Hp.
Qed.

Lemma classify_commit_type_some msg (p : string * Z) :
  p ∈ scores_of (lower msg) → p.2 ≠ 0 →
  ∃ l1 best l2,
    scores_of (lower msg) = (l1 ++ best :: l2)%list ∧
    (∀ q, q ∈ l1 → q.2 < best.2) ∧
    (∀ q, q ∈ l2 → q.2 ≤ best.2) ∧
    classify_commit_type msg =
      {| ct_type := best.1;
         ct_confidence :=
           py_min (int_div best.2
                     (Z.of_nat (length (keywords_of best.1 classifiers))))
                  1%float;
         ct_all_scores := Some (scores_of (lower msg)) |}.
Proof.
  intros Hp Hnz. unfold classify_commit_type.
  destruct (scores_of (lower msg)) as [|first rest] eqn:E; [inversion Hp|].
  destruct (max_value_from_spec (snd <$> rest) first.2) as [_ Hmax].
  rewrite decide_False.
  - destruct (max_type_from_spec rest [] first [])
      as (l1 & l2 & Heq & Ha & Hb); [intros q Hq; inversion Hq..|].
    exists l1, (max_type_from first rest), l2. simpl in Heq. auto.
  - intros Hz.
    assert (Hle : p.2 ≤ 0).
    { rewrite <- Hz. apply Hmax.
      change (first.2 :: (snd <$> rest)) with (snd <$> (first :: rest)).
      apply list_elem_of_fmap. eauto. }
    assert (0 ≤ p.2).
    { rewrite <- E in Hp. apply scores_of_entry in Hp as (kws & _ & ->).
      apply keyword_score_bounds. }
    lia.
Qed.

(** A score of [s] keywords out of [n], with [1 ≤ s ≤ n ≤ 5], gives a
    confidence in (0, 1] that [min(confidence, 1.0)] leaves as it is. *)
Lemma int_div_unit (sc n : Z) :
  1 ≤ sc ≤ n → n ≤ 5 →
  (0 <? int_div sc n)%float = true ∧
  (int_div sc n <=? 1)%float = true ∧
  py_min (int_div sc n) 1%float = int_div sc n.
Proof.
  intros Hs Hn.
  assert (Hn' : n = 1 ∨ n = 2 ∨ n = 3 ∨ n = 4 ∨ n = 5) by lia.
  assert (Hs' : sc = 1 ∨ sc = 2 ∨ sc = 3 ∨ sc = 4 ∨ sc = 5) by lia.
  destruct Hn' as [->|[->|[->|[->| ->]]]];
    destruct Hs' as [->|[->|[->|[->| ->]]]];
    try lia; vm_compute; auto.
Qed.

(** ** Extra properties of [classify_commit_type] *)

(** X15: the type is "other" exactly when none of the keywords of the table
    occurs in the lower-cased message; the result is then the dictionary
    with confidence 0.0 and without [all_scores]. *)
Theorem classify_commit_type_other_iff msg :
  (ct_type (classify_commit_type msg) = "other" ↔
   ∀ t keywords k, (t, keywords) ∈ classifiers → k ∈ keywords →
                   contains k (lower msg) = false) ∧
  (ct_type (classify_commit_type msg) = "other" →
   classify_commit_type msg = other).
Proof.
  assert (Hnone : (∀ p, p ∈ scores_of (lower msg) → p.2 = 0) ↔
                  ∀ t keywords k, (t, keywords) ∈ classifiers →
                    k ∈ keywords → contains k (lower msg) = false).
  { split.
    - intros H t kws k Ht Hk.
      assert (Hz : keyword_score (lower msg) kws = 0).
      { apply (H (t, keyword_score (lower msg) kws)).
        apply scores_of_entry. eauto. }
      eapply keyword_score_zero; eassumption.
    - intros H p Hp. apply scores_of_entry in Hp as (kws & Hin & ->).
      apply keyword_score_zero. intros k Hk. eapply H; eassumption. }
  assert (Hother : ct_type (classify_commit_type msg) = "other" →
                   ∀ p, p ∈ scores_of (lower msg) → p.2 = 0).
  { intros Ht p Hp. destruct (decide (p.2 = 0)) as [|Hnz]; [assumption|].
    exfalso.
    destruct (classify_commit_type_some msg p Hp Hnz)
      as (l1 & best & l2 & Heq & _ & _ & Hc).
    rewrite Hc in Ht. simpl in Ht.
    assert (Hb : best ∈ scores_of (lower msg)).
    { rewrite Heq. apply elem_of_app. right. apply list_elem_of_here. }
    apply scores_of_entry in Hb as (kws & Hin & _).
    apply classifiers_at_most_five in Hin as [_ Hne]. congruence. }
  split; [split|].
  - intros Ht. apply Hnone, Hother, Ht.
  - intros H. rewrite classify_commit_type_none; [reflexivity|].
    apply Hnone, H.
  - intros Ht. apply classify_commit_type_none, Hother, Ht.
Qed.

(** X16: when the type is not "other", it is the first type of the table
    with the greatest score: the types before it score strictly less, the
    types after it do not score more.  [all_scores] holds the seven scores in
    table order, and the confidence is that score divided by the number of
    keywords of the type, which lies in (0, 1]. *)
Theorem classify_commit_type_best msg :
  ct_type (classify_commit_type msg) ≠ "other" →
  ∃ l1 best l2 keywords,
    scores_of (lower msg) = (l1 ++ best :: l2)%list ∧
    ct_type (classify_commit_type msg) = best.1 ∧
    ct_all_scores (classify_commit_type msg) = Some (scores_of (lower msg)) ∧
    (∀ q, q ∈ l1 → q.2 < best.2) ∧
    (∀ q, q ∈ l2 → q.2 ≤ best.2) ∧
    (best.1, keywords) ∈ classifiers ∧
    best.2 = keyword_score (lower msg) keywords ∧
    ct_confidence (classify_commit_type msg) =
      int_div best.2 (Z.of_nat (length keywords)) ∧
    (0 <? ct_confidence (classify_commit_type msg))%float = true ∧
    (ct_confidence (classify_commit_type msg) <=? 1)%float = true.
Proof.
  intros Hne.
  assert (Hex : ∃ p, p ∈ scores_of (lower msg) ∧ p.2 ≠ 0).
  { destruct (decide (Forall (λ p, p.2 = 0) (scores_of (lower msg))))
      as [Hall|Hnot].
    - exfalso. apply Hne. rewrite classify_commit_type_none; [reflexivity|].
      intros p Hp. rewrite Forall_forall in Hall. apply Hall, Hp.
    - apply not_Forall_Exists in Hnot; [|apply _].
      apply Exists_exists in Hnot. exact Hnot. }
  destruct Hex as (p & Hp & Hnz).
  destruct (classify_commit_type_some msg p Hp Hnz)
    as (l1 & best & l2 & Heq & Ha & Hb & Hc).
  assert (Hbest : best ∈ scores_of (lower msg)).
  { rewrite Heq. apply elem_of_app. right. apply list_elem_of_here. }
  apply scores_of_entry in Hbest as (kws & Hin & Hsc).
  rewrite (keywords_of_classifiers _ _ Hin) in Hc.
  assert (Hpos : 1 ≤ best.2).
  { assert (Hp' : p.2 ≤ best.2).
    { rewrite Heq in Hp. apply elem_of_app in Hp as [Hp|Hp].
      - specialize (Ha p Hp). lia.
      - apply elem_of_cons in Hp as [->|Hp]; [lia|]. apply Hb, Hp. }
    assert (0 ≤ p.2).
    { pose proof Hp as Hp2. rewrite Heq in Hp2. clear Hp2.
      apply scores_of_entry in Hp as (kws' & _ & ->).
      apply keyword_score_bounds. }
    lia. }
  pose proof (keyword_score_bounds (lower msg) kws) as Hbd.
  rewrite <- Hsc in Hbd.
  destruct (classifiers_at_most_five _ _ Hin) as [Hlen _].
  destruct (int_div_unit best.2 (Z.of_nat (length kws))) as (H0 & H1 & Hmin);
    [lia | lia |].
  rewrite Hmin in Hc.
  exists l1, best, l2, kws. rewrite Hc. simpl. repeat split; auto.
Qed.

(** X17: on ASCII text, where [lower] and [upper] are Python's, the
    classification does not depend on the case of the letters: a message, its
    upper-cased form and its lower-cased form classify alike. *)
Theorem classify_commit_type_ignores_case msg :
  is_ascii msg = true →
  classify_commit_type (upper msg) = classify_commit_type msg ∧
  classify_commit_type (lower msg) = classify_commit_type msg.
Proof.
  intros _. unfold classify_commit_type. rewrite lower_upper, lower_lower.
  auto.
Qed.

Lemma docs_entry_in_scores hay (t : string) (keywords : list string) :
  (t, keywords) ∈ classifiers →
  (t, keyword_score hay keywords) ∈ scores_of hay.
Proof. intros H. apply scores_of_entry. simpl. eauto. Qed.

(** X18: keywords match as substrings, and a keyword that is part of another
    counts again: a message containing "documentation" scores at least 2 for
    "docs" (it also contains "doc"), and a message containing "performance"
    scores at least 2 for "perf". *)
Theorem classify_commit_type_counts_twice msg :
  (contains "documentation" (lower msg) = true →
   ∃ scores sc, ct_all_scores (classify_commit_type msg) = Some scores ∧
                ("docs", sc) ∈ scores ∧ 2 ≤ sc) ∧
  (contains "performance" (lower msg) = true →
   ∃ scores sc, ct_all_scores (classify_commit_type msg) = Some scores ∧
                ("perf", sc) ∈ scores ∧ 2 ≤ sc).
Proof.
  split; intros H.
  - pose proof (contains_app_l "doc" "umentation" _ H) as H'.
    set (kws := ["doc"; "documentation"; "readme"; "comment"]).
    assert (Hin : ("docs", keyword_score (lower msg) kws)
                  ∈ scores_of (lower msg)).
    { apply docs_entry_in_scores. unfold classifiers, kws.
      do 3 apply list_elem_of_further. apply list_elem_of_here. }
    assert (Hsc : 2 ≤ keyword_score (lower msg) kws).
    { unfold keyword_score, kws.
      rewrite filter_cons_True by (rewrite H'; exact I).
      rewrite filter_cons_True by (rewrite H; exact I).
      simpl length. lia. }
    destruct (classify_commit_type_some msg _ Hin)
      as (l1 & best & l2 & _ & _ & _ & Hc); [simpl; lia|].
    rewrite Hc. simpl. eauto.
  - pose proof (contains_app_l "perf" "ormance" _ H) as H'.
    set (kws := ["perf"; "performance"; "optimize"; "speed"]).
    assert (Hin : ("perf", keyword_score (lower msg) kws)
                  ∈ scores_of (lower msg)).
    { apply docs_entry_in_scores. unfold classifiers, kws.
      do 6 apply list_elem_of_further. apply list_elem_of_here. }
    assert (Hsc : 2 ≤ keyword_score (lower msg) kws).
    { unfold keyword_score, kws.
      rewrite filter_cons_True by (rewrite H'; exact I).
      rewrite filter_cons_True by (rewrite H; exact I).
      simpl length. lia. }
    destruct (classify_commit_type_some msg _ Hin)
      as (l1 & best & l2 & _ & _ & _ & Hc); [simpl; lia|].
    rewrite Hc. simpl. eauto.
Qed.

(** ** Extra properties of [calculate_quality_score] *)

(** X19: for an ASCII message, a quality score, when one is returned, is at
    least 0.5 and strictly below 1.0 (the four bonuses add up to
    0.9999999999999999 in binary64, so [min(score, 1.0)] never changes it);
    it is at most 0.7 for a message of 20 characters or fewer and at least
    0.7 for a longer one. *)
Theorem calculate_quality_score_range msg (sentiment : sentiment_value)
    (commit_type : CommitType) (q : float) :
  is_ascii msg = true →
  calculate_quality_score msg sentiment commit_type = inr q →
  (0.5 <=? q)%float = true ∧ (q <? 1)%float = true ∧
  (len msg ≤ 20 → (q <=? 0.7)%float = true) ∧
  (20 < len msg → (0.7 <=? q)%float = true).
Proof.
  intros _. unfold calculate_quality_score.
  destruct (sentiment_get_label sentiment) as [e|label]; [discriminate|].
  destruct (Z.ltb_spec 20 (len msg)); destruct (Z.ltb_spec 50 (len msg));
    destruct (is_positive label);
    destruct (0.5 <? ct_confidence commit_type)%float;
    intros [= <-]; repeat split; intros; try lia; vm_compute; reflexivity.
Qed.

(** ** Comparison of binary64 values *)

Lemma SFltb_step (a b c : SpecFloat.spec_float) :
  SpecFloat.SFltb a b = true → SpecFloat.SFltb a c = false →
  SpecFloat.SFltb b c = false.
Proof.
  unfold SpecFloat.SFltb.
  destruct a as [sa|sa| |sa ma ea], b as [sb|sb| |sb mb eb],
           c as [sc|sc| |sc mc ec];
    simpl; try discriminate; try reflexivity;
    repeat match goal with
    | x : bool |- _ => destruct x
    end; simpl; try discriminate; try reflexivity;
    repeat match goal with
    | |- context [Z.compare ?x ?y] => destruct (Z.compare_spec x y); simpl
    | |- context [Pos.compare_cont Eq ?x ?y] =>
        change (Pos.compare_cont Eq x y) with (Pos.compare x y);
        destruct (Pos.compare_spec x y); simpl
    end; try discriminate; try reflexivity; try (intros; exfalso; lia).
Qed.

Lemma SFltb_irrefl (a : SpecFloat.spec_float) : SpecFloat.SFltb a a = false.
Proof.
  unfold SpecFloat.SFltb.
  destruct a as [sa|sa| |sa ma ea]; simpl; try reflexivity.
  - destruct sa; reflexivity.
  - rewrite Z.compare_refl.
    change (Pos.compare_cont Eq ma ma) with (Pos.compare ma ma).
    rewrite Pos.compare_refl. destruct sa; reflexivity.
Qed.

(** What [max] relies on, for binary64: also in the presence of NaN. *)
Lemma ltb_step (x y m : float) :
  (m <? x)%float = true → (m <? y)%float = false → (x <? y)%float = false.
Proof. rewrite !FloatAxioms.ltb_spec. apply SFltb_step. Qed.

Lemma ltb_irrefl (x : float) : (x <? x)%float = false.
Proof. rewrite FloatAxioms.ltb_spec. apply SFltb_irrefl. Qed.

Lemma max_score_from_spec (rest : list LabelScore) :
  ∀ (best : LabelScore) (seen : list LabelScore),
    (∀ y, y ∈ seen → (ls_score best <? ls_score y)%float = false) →
    max_score_from best rest ∈ best :: rest ∧
    ∀ y, y ∈ (seen ++ best :: rest)%list →
         (ls_score (max_score_from best rest) <? ls_score y)%float = false.
Proof.
  induction rest as [|x rest IH]; intros best seen Hseen; simpl.
  - split; [apply list_elem_of_here|].
    intros y Hy. apply elem_of_app in Hy as [Hy|Hy]; [apply Hseen, Hy|].
    apply list_elem_of_singleton in Hy as ->. apply ltb_irrefl.
  - destruct (ls_score best <? ls_score x)%float eqn:E.
    + destruct (IH x (seen ++ [best])%list) as [Hin Hmax].
      { intros y Hy. apply elem_of_app in Hy as [Hy|Hy].
        - eapply ltb_step; [exact E|apply Hseen, Hy].
        - apply list_elem_of_singleton in Hy as ->.
          eapply ltb_step; [exact E|apply ltb_irrefl]. }
      split; [apply list_elem_of_further, Hin|].
      intros y Hy. apply Hmax. rewrite <- app_assoc. exact Hy.
    + destruct (IH best (seen ++ [x])%list) as [Hin Hmax].
      { intros y Hy. apply elem_of_app in Hy as [Hy|Hy]; [apply Hseen, Hy|].
        apply list_elem_of_singleton in Hy as ->. exact E. }
      split.
      * apply elem_of_cons in Hin as [->|Hin]; [apply list_elem_of_here|].
        do 2 apply list_elem_of_further. exact Hin.
      * intros y Hy. apply Hmax.
        apply elem_of_app in Hy as [Hy|Hy].
        -- apply elem_of_app. left. apply elem_of_app. left. exact Hy.
        -- apply elem_of_cons in Hy as [->|Hy].
           ++ apply elem_of_app. right. apply list_elem_of_here.
           ++ apply elem_of_cons in Hy as [->|Hy].
              ** apply elem_of_app. left. apply elem_of_app. right.
                 apply list_elem_of_here.
              ** apply elem_of_app. right. apply list_elem_of_further, Hy.
Qed.

(** ** Extra properties of [analyze_sentiment] *)

(** X20: on a standard answer with a non-empty first list and ASCII labels,
    for an ASCII text that is not blank, one request is made and the result
    carries the score of the entry [max] selects (an entry of the list that
    no entry exceeds), the whole list as [all_scores], and a label that is
    one of "POSITIVE", "NEGATIVE" and "NEUTRAL". *)
Theorem analyze_sentiment_best post text (x : LabelScore)
    (xs : list LabelScore) (rest : list json) :
  is_ascii text = true →
  is_blank text = false →
  post text = inr (HFScores (x :: xs) rest) →
  ascii_labels (post text) = true →
  ∃ best, best ∈ x :: xs ∧
    analyze_sentiment post text =
      ([text], inr (Labeled (normalize_label (ls_label best)) (ls_score best)
                            (Some (x :: xs)))) ∧
    (∀ y, y ∈ x :: xs → (ls_score best <? ls_score y)%float = false) ∧
    normalize_label (ls_label best) ∈ ["POSITIVE"; "NEGATIVE"; "NEUTRAL"].
Proof.
  intros _ Hb Hp _. exists (max_score_from x xs).
  destruct (max_score_from_spec xs x []) as [Hin Hmax];
    [intros y Hy; inversion Hy|].
  split; [exact Hin|]. split; [|split].
  - unfold analyze_sentiment. rewrite Hb, Hp. reflexivity.
  - intros y Hy. apply Hmax. exact Hy.
  - unfold normalize_label.
    destruct (contains "POSITIVE" _); [apply list_elem_of_here|].
    destruct (contains "NEGATIVE" _).
    + apply list_elem_of_further, list_elem_of_here.
    + do 2 apply list_elem_of_further. apply list_elem_of_here.
Qed.

(** X21: whenever [analyze_sentiment] raises, the text was not blank, one
    request was made, and the exception is the plain [Exception] whose
    message starts with "Hugging Face API Error: ". *)
Theorem analyze_sentiment_failure post text (tr : list string) (e : exn) :
  analyze_sentiment post text = (tr, inl e) →
  is_blank text = false ∧ tr = [text] ∧ exn_cls e = OtherException ∧
  ∃ m, exn_msg e = "Hugging Face API Error: " +:+ m.
Proof.
  unfold analyze_sentiment. destruct (is_blank text); [discriminate|].
  intros H. split; [reflexivity|].
  destruct (post text) as [e0|[[|x xs] rest|first rest| |fields|v]];
    inversion H; subst; simpl; eauto.
Qed.

(** ** Extra properties of [analyze_commit] and of its callers *)

Lemma keywords_start_with_letter (t : string) (keywords : list string)
    (k : string) :
  (t, keywords) ∈ classifiers → k ∈ keywords →
  ∃ c k', k = String c k' ∧ is_space c = false.
Proof.
  unfold classifiers. intros H Hk.
  repeat (apply elem_of_cons in H as [H|H];
    [inversion H; subst;
     repeat (apply elem_of_cons in Hk as [->|Hk];
             [eexists _, _; split; reflexivity|]);
     inversion Hk|]).
  inversion H.
Qed.

Lemma classify_commit_type_blank msg :
  is_blank msg = true → classify_commit_type msg = other.
Proof.
  intros Hb. apply classify_commit_type_none. intros p Hp.
  apply scores_of_entry in Hp as (kws & Hin & ->).
  apply keyword_score_zero. intros k Hk.
  destruct (keywords_start_with_letter _ _ _ Hin Hk) as (c & k' & -> & Hc).
  apply blank_contains; [exact Hc|]. rewrite is_blank_lower. exact Hb.
Qed.

(** X22: for a blank message (empty or white space only) [analyze_commit]
    makes no request: the sentiment is NEUTRAL with score 0.0, the type is
    "other", and the quality score depends on the length alone. *)
Theorem analyze_commit_blank post msg :
  is_blank msg = true →
  analyze_commit post msg =
    ([], inr {| message := msg;
                sentiment := Labeled "NEUTRAL" 0%float None;
                commit_type := other;
                quality_score :=
                  if 50 <? len msg then (0.5 + 0.2 + 0.1)%float
                  else if 20 <? len msg then (0.5 + 0.2)%float
                  else 0.5%float |}).
Proof.
  intros Hb. unfold analyze_commit, analyze_sentiment. rewrite Hb. simpl.
  rewrite (classify_commit_type_blank msg Hb).
  unfold calculate_quality_score. simpl.
  destruct (Z.ltb_spec 20 (len msg)); destruct (Z.ltb_spec 50 (len msg));
    try lia; reflexivity.
Qed.

(** X23: when the API answers an ASCII text that is not blank with the
    empty list or with a scalar, [/analyze/sentiment] hands that answer back,
    while [/analyze/commit] fails with a 500: the answer has no [get], and
    the detail names its type ("'list' object has no attribute 'get'" for the
    empty list). *)
Theorem raw_answer_breaks_commit_analysis post msg (r : hf_result) :
  is_ascii msg = true →
  is_blank msg = false → post msg = inr r →
  r = HFEmpty ∨ (∃ v, r = HFScalar v) →
  analyze_text_sentiment post msg = ([msg], inr (Raw r)) ∧
  analyze_single_commit post msg =
    ([msg], inl {| status_code := 500;
                   detail := "Commit analysis failed: '" +:+ type_name r +:+
                             "' object has no attribute 'get'" |}).
Proof.
  intros _ Hb Hp Hr.
  unfold analyze_text_sentiment, analyze_single_commit, analyze_commit,
    analyze_sentiment.
  rewrite Hb, Hp. destruct Hr as [->|[v ->]]; split; reflexivity.
Qed.

Lemma analyze_commit_trace post msg :
  (analyze_commit post msg).1 = filter (λ m, is_blank m = false) [msg].
Proof.
  unfold analyze_commit, analyze_sentiment.
  rewrite filter_cons, filter_nil.
  destruct (is_blank msg); simpl; reflexivity.
Qed.

(** X24: for ASCII messages answered with ASCII labels, when
    [batch_analyze_commits] returns, it returns one analysis per message, in
    order, each the analysis of its message, and the requests it made are the
    messages that are not blank, in order. *)
Theorem batch_analyze_commits_results post (messages : list string)
    (tr : list string) (rs : list CommitAnalysis) :
  forallb is_ascii messages = true →
  forallb (λ m, ascii_labels (post m)) messages = true →
  batch_analyze_commits post messages = (tr, inr rs) →
  message <$> rs = messages ∧
  tr = filter (λ m, is_blank m = false) messages ∧
  ∀ i m r, messages !! i = Some m → rs !! i = Some r →
           (analyze_commit post m).2 = inr r.
Proof.
  intros _ _. revert tr rs.
  induction messages as [|m ms IH]; intros tr rs H;
    cbn [batch_analyze_commits] in H.
  - inversion H; subst. repeat split. intros i m r Hm. inversion Hm.
  - pose proof (analyze_commit_trace post m) as Ht.
    destruct (analyze_commit post m) as [t [e|a]] eqn:Ha;
      cbn [fst snd] in *; [discriminate|].
    destruct (batch_analyze_commits post ms) as [t' [e|l]] eqn:Hb;
      cbn [fst snd] in H; [discriminate|].
    inversion H; subst.
    destruct (IH _ _ eq_refl) as (Hmsg & Htr & Hall).
    assert (Hm : message a = m).
    { unfold analyze_commit in Ha.
      destruct (analyze_sentiment post m) as [ts [es|sv]]; simpl in Ha;
        [discriminate|].
      destruct (calculate_quality_score m sv (classify_commit_type m));
        inversion Ha; reflexivity. }
    repeat split.
    + rewrite fmap_cons, Hm, Hmsg. reflexivity.
    + rewrite Htr. rewrite (filter_cons _ m ms), filter_cons, filter_nil.
      destruct (decide (is_blank m = false)); reflexivity.
    + intros [|i] m' r Hm' Hr; simpl in Hm', Hr.
      * assert (m' = m) by congruence. assert (r = a) by congruence.
        subst m' r. rewrite Ha. reflexivity.
      * eapply Hall; eassumption.
Qed.

(** X25: for ASCII messages, when [batch_analyze_commits] raises, it is at
    the first message whose analysis raises, with that exception; the
    messages before it were analysed, the messages after it are not posted,
    and no analysis is returned. *)
Theorem batch_analyze_commits_failure post (messages : list string)
    (tr : list string) (e : exn) :
  forallb is_ascii messages = true →
  batch_analyze_commits post messages = (tr, inl e) →
  ∃ before m after,
    messages = (before ++ m :: after)%list ∧
    (analyze_commit post m).2 = inl e ∧
    (∀ m', m' ∈ before → ∃ r, (analyze_commit post m').2 = inr r) ∧
    tr = filter (λ m, is_blank m = false) (before ++ [m])%list.
Proof.
  intros _. revert tr.
  induction messages as [|m ms IH]; intros tr H;
    cbn [batch_analyze_commits] in H; [discriminate|].
  pose proof (analyze_commit_trace post m) as Ht.
  destruct (analyze_commit post m) as [t [e0|a]] eqn:Ha; cbn [fst snd] in *.
  - inversion H; subst. exists [], m, ms. rewrite Ha. simpl.
    repeat split. intros m' Hm'. inversion Hm'.
  - destruct (batch_analyze_commits post ms) as [t' [e'|l]] eqn:Hb;
      cbn [fst snd] in H; [|discriminate].
    inversion H; subst.
    destruct (IH _ eq_refl) as (before & m0 & after & -> & He & Hok & Htr).
    exists (m :: before), m0, after. repeat split.
    + exact He.
    + intros m' Hm'. apply elem_of_cons in Hm' as [->|Hm'].
      * rewrite Ha. simpl. eauto.
      * apply Hok, Hm'.
    + rewrite Htr. simpl.
      rewrite (filter_cons _ m (before ++ [m0])), filter_cons, filter_nil.
      destruct (decide (is_blank m = false)); reflexivity.
Qed.

(** X26: when [/analyze/commit] fails on an ASCII message, the status is
    500, the message was not blank and was posted once, and the detail is
    either
    "Commit analysis failed: Hugging Face API Error: ..." (the request, or
    the reading of a standard or flat answer, raised) or
    "Commit analysis failed: 'T' object has no attribute 'get'", where the API
    answered with an empty list or a scalar and T is the name of the answer's
    type. *)
Theorem analyze_single_commit_failure post msg (tr : list string)
    (h : HTTPException) :
  is_ascii msg = true →
  analyze_single_commit post msg = (tr, inl h) →
  status_code h = 500 ∧ is_blank msg = false ∧ tr = [msg] ∧
  ((∃ m, detail h =
         "Commit analysis failed: " +:+ ("Hugging Face API Error: " +:+ m)) ∨
   (∃ r, post msg = inr r ∧ (r = HFEmpty ∨ ∃ v, r = HFScalar v) ∧
         detail h = "Commit analysis failed: '" +:+ type_name r +:+
                    "' object has no attribute 'get'")).
Proof.
  unfold analyze_single_commit, analyze_commit, analyze_sentiment.
  intros _ H. destruct (is_blank msg) eqn:Hb; cbn [fst snd] in H.
  - unfold calculate_quality_score in H. cbn [sentiment_get_label] in H.
    discriminate.
  - destruct (post msg) as [e0|[[|x xs] rest|first rest| |fields|v]];
      cbn [fst snd] in H;
      unfold calculate_quality_score in H; cbn [sentiment_get_label] in H;
      try discriminate;
      inversion H; subst; cbn [status_code detail exn_str exn_msg wrap];
      (split; [reflexivity|]); (split; [reflexivity|]);
      (split; [reflexivity|]).
    + left. eauto.
    + left. eauto.
    + left. eauto.
    + right. exists HFEmpty. repeat split. left. reflexivity.
    + right. exists (HFScalar v). repeat split. right. eauto.
Qed.

End CommitFacts.

(** * The further properties on concrete inputs *)

Lemma predict_comments_calls_witness :
  Exact.batch_trace =
    ([EvTransform Exact.batch; EvPredict] ++ proba_calls Exact.forest ++
     decoder_calls (LABEL_ENCODER Exact.loaded)
       (take (length Exact.batch) [PyInt 1; PyInt 0; PyInt 2]))%list.
Proof.
  apply (predict_comments_calls Exact.loaded Exact.batch Exact.batch_trace
           (summarize Exact.loaded Exact.batch_results)
           Exact.length_vectorizer Exact.forest [11; 21; 3]).
  - reflexivity.
  - reflexivity.
  - reflexivity.
  - reflexivity.
  - vm_compute. reflexivity.
Defined.

Lemma predict_comments_failure_cases_witness :
  ((VECTORIZER Exact.unloaded = None ∨ MODEL Exact.unloaded = None) ∧
   @nil event = [] ∧
   Raise RuntimeError "Models not loaded on server" =
     Raise RuntimeError "Models not loaded on server") ∨
  ∃ vec clf, VECTORIZER Exact.unloaded = Some vec ∧
    MODEL Exact.unloaded = Some clf ∧
    ((transform vec Exact.batch =
        inl (Raise RuntimeError "Models not loaded on server") ∧
      [] = [EvTransform Exact.batch]) ∨
     ∃ X, transform vec Exact.batch = inr X ∧
       ((predict clf X = inl (Raise RuntimeError "Models not loaded on server") ∧
         [] = [EvTransform Exact.batch; EvPredict]) ∨
        ∃ preds, predict clf X = inr preds ∧
          (exn_cls (Raise RuntimeError "Models not loaded on server")
             = IndexError ∨
           exn_cls (Raise RuntimeError "Models not loaded on server")
             = ValueError) ∧
          ((length preds < length Exact.batch)%nat ∨
           rows_available (probs_of clf X) (length Exact.batch) = false))).
Proof.
  apply (predict_comments_failure_cases Exact.unloaded Exact.batch []
           (Raise RuntimeError "Models not loaded on server")).
  reflexivity.
Defined.

Lemma predict_comments_too_few_labels_witness :
  ∃ tr e, predict_comments Exact.loaded_short Exact.batch = (tr, inl e) ∧
          exn_cls e = IndexError.
Proof.
  apply (predict_comments_too_few_labels Exact.loaded_short Exact.batch
           Exact.length_vectorizer Exact.forest_short [11; 21; 3]
           [PyInt 1; PyInt 0]).
  - reflexivity.
  - reflexivity.
  - reflexivity.
  - reflexivity.
  - simpl. lia.
  - reflexivity.
Defined.

Lemma predict_comments_model_name_witness :
  ∃ clf, MODEL Exact.loaded = Some clf ∧
         model (summarize Exact.loaded Exact.batch_results)
           = Some (class_name clf).
Proof.
  apply (predict_comments_model_name Exact.loaded Exact.batch
           Exact.batch_trace).
  vm_compute. reflexivity.
Defined.

Lemma predict_comments_empty_batch_witness :
  predict_comments Exact.loaded [] =
    (([EvTransform []; EvPredict] ++ proba_calls Exact.forest)%list,
     inr {| count := 0; results := [];
            distribution := {| counts := ∅; percentages := ∅ |};
            average_confidence := float_zero;
            model := Some (class_name Exact.forest) |}).
Proof.
  apply (predict_comments_empty_batch Exact.loaded Exact.length_vectorizer
           Exact.forest [] []).
  - reflexivity.
  - reflexivity.
  - reflexivity.
  - reflexivity.
Defined.

Lemma analyze_comments_batch_failure_witness :
  comments {| comments := Exact.batch |} ≠ [] ∧
  status_code {| status_code := 500;
                 detail := "Models not loaded on server" |} = 500 ∧
  ∃ e, predict_comments Exact.unloaded (comments {| comments := Exact.batch |})
         = ([], inl e) ∧
       detail {| status_code := 500;
                 detail := "Models not loaded on server" |} = exn_str e.
Proof.
  apply (analyze_comments_batch_failure Exact.unloaded
           {| comments := Exact.batch |} []).
  reflexivity.
Defined.

Lemma analyze_comments_batch_success_witness :
  ∃ s, predict_comments Exact.loaded (comments {| comments := Exact.batch |})
         = (Exact.batch_trace, inr s) ∧
    summary_dict (summarize Exact.loaded Exact.batch_results) = summary_dict s ∧
    r_count (summary_dict (summarize Exact.loaded Exact.batch_results))
      = Z.of_nat (length (comments {| comments := Exact.batch |})) ∧
    0 < r_count (summary_dict (summarize Exact.loaded Exact.batch_results)) ∧
    r_average_confidence
        (summary_dict (summarize Exact.loaded Exact.batch_results))
      = Some (mean (confidence <$>
                r_results (summary_dict
                             (summarize Exact.loaded Exact.batch_results)))).
Proof.
  apply (analyze_comments_batch_success Exact.loaded
           {| comments := Exact.batch |} Exact.batch_trace).
  - discriminate.
  - vm_compute. reflexivity.
Defined.

Lemma predict_comments_after_failed_load_witness :
  predict_comments (load_models unset Exact.corrupt_dir) Exact.batch =
    ([], inl (Raise RuntimeError "Models not loaded on server")).
Proof.
  apply (predict_comments_after_failed_load Exact.corrupt_dir Exact.batch).
  left. intros v. discriminate.
Defined.

Lemma analyze_video_analysis_witness :
  ∃ info s,
    Exact.extractor (video_url Exact.video_request) = inr info ∧
    comments_texts info Exact.video_request ≠ [] ∧
    predict_comments Exact.loaded (comments_texts info Exact.video_request)
      = (Exact.batch_trace, inr s) ∧
    distribution (summarize Exact.loaded Exact.batch_results)
      = distribution s ∧
    ca_analyzed (analyzed_with (summarize Exact.loaded Exact.batch_results))
      = Z.of_nat (length (comments_texts info Exact.video_request)) ∧
    ca_sample_results
        (analyzed_with (summarize Exact.loaded Exact.batch_results))
      = Some (take 20 (results s)) ∧
    ca_average_confidence
        (analyzed_with (summarize Exact.loaded Exact.batch_results))
      = Some (mean (confidence <$> results s)).
Proof.
  apply (analyze_video_analysis Exact.extractor Exact.loaded
           Exact.video_request Exact.batch_trace
           (video_result Exact.video_info
              (Some (analyzed_with
                       (summarize Exact.loaded Exact.batch_results))))).
  - vm_compute. reflexivity.
  - reflexivity.
  - reflexivity.
Defined.

Lemma analyze_video_models_unloaded_witness :
  ∃ ca, analyze_video Exact.extractor Exact.unloaded Exact.video_request =
          ([], inr (video_result Exact.video_info (Some ca))) ∧
    ca_analyzed ca = 0 ∧ ca_distribution ca = None ∧
    ca_average_confidence ca = None ∧ ca_sample_results ca = None.
Proof.
  apply (analyze_video_models_unloaded Exact.extractor Exact.unloaded
           Exact.video_request Exact.video_info).
  - reflexivity.
  - reflexivity.
  - left. reflexivity.
Defined.

Lemma analyze_video_uncaught_witness :
  analyze_video Exact.extractor Exact.loaded_failing_vectorizer
      Exact.video_request
    = ([EvTransform Exact.batch],
       inl (Uncaught (Raise ValueError "empty vocabulary"))) ∧
  ∃ h, analyze_comments_batch Exact.loaded_failing_vectorizer
         {| comments := comments_texts Exact.video_info Exact.video_request |}
         = ([EvTransform Exact.batch], inl h) ∧ status_code h = 500.
Proof.
  apply (analyze_video_uncaught Exact.extractor
           Exact.loaded_failing_vectorizer Exact.video_request
           Exact.video_info).
  - reflexivity.
  - reflexivity.
  - vm_compute. discriminate.
  - vm_compute. reflexivity.
  - discriminate.
Defined.

Lemma analyze_video_http_error_witness :
  @nil event = [] ∧
  status_code {| status_code := 400; detail := "Video unavailable" |} = 400 ∧
  ∃ e, @inl exn VideoInfo (Raise OtherException "Video unavailable") = inl e ∧
       detail {| status_code := 400; detail := "Video unavailable" |}
         = exn_str e.
Proof.
  apply (analyze_video_http_error
           (λ _, inl (Raise OtherException "Video unavailable"))
           Exact.loaded Exact.video_request []
           {| status_code := 400; detail := "Video unavailable" |}).
  reflexivity.
Defined.

Section CommitWitnesses.

Import HfModels.
Import PrimFloat.

#[local] Set Warnings "-inexact-float".

Lemma classify_commit_type_best_witness :
  ∃ l1 best l2 keywords,
    scores_of (lower "Fix bug") = (l1 ++ best :: l2)%list ∧
    ct_type (classify_commit_type "Fix bug") = best.1 ∧
    ct_all_scores (classify_commit_type "Fix bug")
      = Some (scores_of (lower "Fix bug")) ∧
    (∀ q, q ∈ l1 → q.2 < best.2) ∧
    (∀ q, q ∈ l2 → q.2 ≤ best.2) ∧
    (best.1, keywords) ∈ classifiers ∧
    best.2 = keyword_score (lower "Fix bug") keywords ∧
    ct_confidence (classify_commit_type "Fix bug") =
      int_div best.2 (Z.of_nat (length keywords)) ∧
    (0 <? ct_confidence (classify_commit_type "Fix bug"))%float = true ∧
    (ct_confidence (classify_commit_type "Fix bug") <=? 1)%float = true.
Proof.
  apply (classify_commit_type_best "Fix bug").
  vm_compute. discriminate.
Defined.

Lemma classify_commit_type_ignores_case_witness :
  classify_commit_type (upper "Fix Bug in README")
    = classify_commit_type "Fix Bug in README" ∧
  classify_commit_type (lower "Fix Bug in README")
    = classify_commit_type "Fix Bug in README".
Proof.
  apply (classify_commit_type_ignores_case "Fix Bug in README").
  reflexivity.
Defined.

Lemma calculate_quality_score_range_witness :
  (0.5 <=? 0.5 + 0.1)%float = true ∧ (0.5 + 0.1 <? 1)%float = true ∧
  (len "add tests" ≤ 20 → (0.5 + 0.1 <=? 0.7)%float = true) ∧
  (20 < len "add tests" → (0.7 <=? 0.5 + 0.1)%float = true).
Proof.
  apply (calculate_quality_score_range "add tests"
           (Labeled "POSITIVE" 0.5%float None)
           (classify_commit_type "add tests")).
  - reflexivity.
  - vm_compute. reflexivity.
Defined.

Lemma analyze_sentiment_best_witness :
  ∃ best,
    best ∈ [ {| ls_label := "LABEL_positive"; ls_score := 0.125 |};
             {| ls_label := "negative"; ls_score := 0.75 |};
             {| ls_label := "neutral"; ls_score := 0.125 |} ] ∧
    analyze_sentiment sample_post "this broke" =
      (["this broke"],
       inr (Labeled (normalize_label (ls_label best)) (ls_score best)
              (Some [ {| ls_label := "LABEL_positive"; ls_score := 0.125 |};
                      {| ls_label := "negative"; ls_score := 0.75 |};
                      {| ls_label := "neutral"; ls_score := 0.125 |} ]))) ∧
    (∀ y, y ∈ [ {| ls_label := "LABEL_positive"; ls_score := 0.125 |};
                {| ls_label := "negative"; ls_score := 0.75 |};
                {| ls_label := "neutral"; ls_score := 0.125 |} ] →
          (ls_score best <? ls_score y)%float = false) ∧
    normalize_label (ls_label best) ∈ ["POSITIVE"; "NEGATIVE"; "NEUTRAL"].
Proof.
  apply (analyze_sentiment_best sample_post "this broke" _ _ []).
  - reflexivity.
  - reflexivity.
  - reflexivity.
  - reflexivity.
Defined.

Lemma analyze_sentiment_failure_witness :
  is_blank "x" = false ∧ ["x"] = ["x"] ∧
  exn_cls (wrap (Raise OtherException "503 Server Error: Service Unavailable"))
    = OtherException ∧
  ∃ m, exn_msg
         (wrap (Raise OtherException "503 Server Error: Service Unavailable"))
       = "Hugging Face API Error: " +:+ m.
Proof.
  apply (analyze_sentiment_failure failing_post "x").
  reflexivity.
Defined.

Lemma analyze_commit_blank_witness :
  analyze_commit sample_post "   " =
    ([], inr {| message := "   ";
                sentiment := Labeled "NEUTRAL" 0%float None;
                commit_type := other;
                quality_score :=
                  if 50 <? len "   " then (0.5 + 0.2 + 0.1)%float
                  else if 20 <? len "   " then (0.5 + 0.2)%float
                  else 0.5%float |}).
Proof.
  apply (analyze_commit_blank sample_post "   ").
  reflexivity.
Defined.

Lemma raw_answer_breaks_commit_analysis_witness :
  analyze_text_sentiment empty_post "x" = (["x"], inr (Raw HFEmpty)) ∧
  analyze_single_commit empty_post "x" =
    (["x"], inl {| status_code := 500;
                   detail := "Commit analysis failed: 'list' object has no attribute 'get'" |}).
Proof.
  apply (raw_answer_breaks_commit_analysis empty_post "x" HFEmpty).
  - reflexivity.
  - reflexivity.
  - reflexivity.
  - left. reflexivity.
Defined.

Lemma batch_analyze_commits_results_witness :
  message <$> sample_analyses = sample_messages ∧
  ["add tests"; "this broke"]
    = filter (λ m, is_blank m = false) sample_messages ∧
  ∀ i m r, sample_messages !! i = Some m → sample_analyses !! i = Some r →
           (analyze_commit sample_post m).2 = inr r.
Proof.
  apply (batch_analyze_commits_results sample_post sample_messages).
  - reflexivity.
  - reflexivity.
  - vm_compute. reflexivity.
Defined.

Lemma batch_analyze_commits_failure_witness :
  ∃ before m after,
    ["  "; "x"; "y"] = (before ++ m :: after)%list ∧
    (analyze_commit failing_post m).2 =
      inl (wrap (Raise OtherException "503 Server Error: Service Unavailable")) ∧
    (∀ m', m' ∈ before → ∃ r, (analyze_commit failing_post m').2 = inr r) ∧
    ["x"] = filter (λ m, is_blank m = false) (before ++ [m])%list.
Proof.
  apply (batch_analyze_commits_failure failing_post ["  "; "x"; "y"]).
  - reflexivity.
  - vm_compute. reflexivity.
Defined.

Lemma analyze_single_commit_failure_witness :
  status_code
    {| status_code := 500;
       detail := "Commit analysis failed: 'list' object has no attribute 'get'" |}
    = 500 ∧
  is_blank "x" = false ∧ ["x"] = ["x"] ∧
  ((∃ m, detail
           {| status_code := 500;
              detail := "Commit analysis failed: 'list' object has no attribute 'get'" |}
         = "Commit analysis failed: " +:+ ("Hugging Face API Error: " +:+ m)) ∨
   (∃ r, empty_post "x" = inr r ∧ (r = HFEmpty ∨ ∃ v, r = HFScalar v) ∧
    detail
      {| status_code := 500;
         detail := "Commit analysis failed: 'list' object has no attribute 'get'" |}
      = "Commit analysis failed: '" +:+ type_name r +:+
        "' object has no attribute 'get'")).
Proof.
  apply (analyze_single_commit_failure empty_post "x").
  - reflexivity.
  - reflexivity.
Defined.

End CommitWitnesses.

(** * Properties of the commits batch endpoint *)

Section CommitBatchFacts.

Import HfModels.
Import PrimFloat.

Implicit Types (post : string → exn + hf_result) (commits : list string)
  (py_sum : list float → float).

Lemma total_dict_incr {K} (eqb : K → K → bool) (k : K) (d : list (K * Z)) :
  total (dict_incr eqb k d) = total d + 1.
Proof.
  unfold total. induction d as [|[k' n] d IH]; simpl; [lia|].
  destruct (eqb k' k); simpl; lia.
Qed.

Lemma total_count_types (types : list string) :
  total (count_types types) = Z.of_nat (length types).
Proof.
  unfold count_types.
  assert (H : ∀ d, total (foldl (λ d t,
                 dict_incr (λ a b, bool_decide (a = b)) t d) d types)
               = total d + Z.of_nat (length types)).
  { induction types as [|t ts IH]; intros d; simpl; [lia|].
    rewrite IH, total_dict_incr. lia. }
  rewrite H. unfold total. simpl. lia.
Qed.

Lemma total_count_labels (labels : list json) :
  ∀ d d', count_labels labels d = inr d' →
          total d' = total d + Z.of_nat (length labels).
Proof.
  induction labels as [|l ls IH]; intros d d' H; simpl in H.
  - inversion H; subst. simpl. lia.
  - destruct (hashable l); [|discriminate].
    apply IH in H. rewrite H, total_dict_incr. simpl length. lia.
Qed.

Lemma length_sentiment_labels (results : list CommitAnalysis) :
  ∀ labels, sentiment_labels results = inr labels →
            (length labels ≤ length results)%nat.
Proof.
  induction results as [|r rs IH]; intros labels H; simpl in H.
  - inversion H; subst. simpl. lia.
  - destruct (has_label (sentiment r)) as [e|[|]]; [discriminate| |].
    + destruct (label_of (sentiment r)) as [e|l]; [discriminate|].
      destruct (sentiment_labels rs) as [e|ls]; [discriminate|].
      inversion H; subst. specialize (IH ls eq_refl). simpl. lia.
    + specialize (IH labels H). simpl. lia.
Qed.

Lemma batch_analyze_commits_messages post commits (tr : list string)
    (rs : list CommitAnalysis) :
  batch_analyze_commits post commits = (tr, inr rs) →
  message <$> rs = commits.
Proof.
  revert tr rs.
  induction commits as [|m ms IH]; intros tr rs H;
    cbn [batch_analyze_commits] in H.
  - inversion H; subst. reflexivity.
  - destruct (analyze_commit post m) as [t [e|a]] eqn:Ha;
      cbn [fst snd] in H; [discriminate|].
    destruct (batch_analyze_commits post ms) as [t' [e|l]] eqn:Hb;
      cbn [fst snd] in H; [discriminate|].
    inversion H; subst. rewrite fmap_cons, (IH _ _ eq_refl). f_equal.
    unfold analyze_commit in Ha.
    destruct (analyze_sentiment post m) as [ts [es|sv]]; simpl in Ha;
      [discriminate|].
    destruct (calculate_quality_score m sv (classify_commit_type m));
      inversion Ha; reflexivity.
Qed.

(** X27: when the endpoint returns for a non-empty list of commits, [count]
    and [total_commits] are the number of commits, the results carry the
    messages in order, the values of [type_distribution] add up to [count],
    those of [sentiment_distribution] add up to at most [count] (only results
    whose sentiment has a label are counted), and [average_quality_score] is
    a float, never the integer 0 of the empty case. *)
Theorem analyze_commits_batch_statistics py_sum post commits
    (tr : list string) (resp : BatchCommitsResponse) :
  commits ≠ [] →
  analyze_commits_batch py_sum post commits = (tr, inr resp) →
  ∃ stats, bc_statistics resp = Some stats ∧
    bc_count resp = Z.of_nat (length commits) ∧
    total_commits stats = bc_count resp ∧
    message <$> bc_results resp = commits ∧
    total (type_distribution stats) = bc_count resp ∧
    0 ≤ total (sentiment_distribution stats) ≤ bc_count resp ∧
    ∃ x, average_quality_score stats = JFloat x.
Proof.
  intros Hne H. unfold analyze_commits_batch in H.
  destruct commits as [|c cs]; [congruence|].
  destruct (batch_analyze_commits post (c :: cs)) as [t [e|rs]] eqn:Hrun;
    cbn [fst snd] in H; [discriminate|].
  destruct (sentiment_labels rs) as [e|labels] eqn:Hl; [discriminate|].
  destruct (count_labels labels []) as [e|sd] eqn:Hc; [discriminate|].
  inversion H; subst. clear H.
  pose proof (batch_analyze_commits_messages _ _ _ _ Hrun) as Hmsg.
  assert (Hlen : length rs = length (c :: cs)).
  { rewrite <- Hmsg. rewrite length_fmap. reflexivity. }
  pose proof (total_count_labels _ _ _ Hc) as Hsd.
  pose proof (length_sentiment_labels _ _ Hl) as Hll.
  eexists. split; [reflexivity|]. cbn [bc_count bc_results total_commits
    type_distribution sentiment_distribution average_quality_score].
  rewrite total_count_types, length_fmap, Hlen.
  change (total (@nil (json * Z))) with 0 in Hsd.
  repeat split; try assumption; try lia.
  destruct rs as [|r rs']; [simpl in Hlen; lia|].
  simpl. eauto.
Qed.

(** X28: when the endpoint raises, it raises an [HTTPException] with status
    500 whose detail starts with "Batch analysis failed: ", whatever went
    wrong (the API, an answer without [get], a label that cannot be a key),
    and the list of commits was not empty. *)
Theorem analyze_commits_batch_failure py_sum post commits (tr : list string)
    (h : HTTPException) :
  analyze_commits_batch py_sum post commits = (tr, inl h) →
  commits ≠ [] ∧ status_code h = 500 ∧
  ∃ m, detail h = "Batch analysis failed: " +:+ m.
Proof.
  unfold analyze_commits_batch. intros H.
  destruct commits as [|c cs]; [discriminate|].
  split; [discriminate|].
  destruct (batch_analyze_commits post (c :: cs)) as [t [e|rs]];
    cbn [fst snd] in H.
  { inversion H; subst. simpl. eauto. }
  destruct (sentiment_labels rs) as [e|labels].
  { inversion H; subst. simpl. eauto. }
  destruct (count_labels labels []) as [e|sd].
  { inversion H; subst. simpl. eauto. }
  discriminate.
Qed.

Lemma analyze_commits_batch_statistics_witness :
  ∃ stats,
    bc_statistics
      {| bc_count := 3; bc_results := sample_analyses;
         bc_statistics := Some
           {| sentiment_distribution :=
                [(JStr "POSITIVE", 1); (JStr "NEUTRAL", 1);
                 (JStr "NEGATIVE", 1)];
              type_distribution := [("feature", 1); ("other", 2)];
              average_quality_score :=
                JFloat (foldl add 0%float (quality_score <$> sample_analyses)
                        / float_of_int 3);
              total_commits := 3 |} |} = Some stats ∧
    3 = Z.of_nat (length sample_messages) ∧
    total_commits stats = 3 ∧
    message <$> sample_analyses = sample_messages ∧
    total (type_distribution stats) = 3 ∧
    0 ≤ total (sentiment_distribution stats) ≤ 3 ∧
    ∃ x, average_quality_score stats = JFloat x.
Proof.
  apply (analyze_commits_batch_statistics (foldl add 0%float) sample_post
           sample_messages ["add tests"; "this broke"]
           {| bc_count := 3; bc_results := sample_analyses;
              bc_statistics := Some
                {| sentiment_distribution :=
                     [(JStr "POSITIVE", 1); (JStr "NEUTRAL", 1);
                      (JStr "NEGATIVE", 1)];
                   type_distribution := [("feature", 1); ("other", 2)];
                   average_quality_score :=
                     JFloat (foldl add 0%float
                               (quality_score <$> sample_analyses)
                             / float_of_int 3);
                   total_commits := 3 |} |}).
  - discriminate.
  - vm_compute. reflexivity.
Defined.

Lemma analyze_commits_batch_failure_witness :
  ["x"; "y"] ≠ [] ∧
  status_code
    {| status_code := 500;
       detail := "Batch analysis failed: Hugging Face API Error: 503 Server Error: Service Unavailable" |}
    = 500 ∧
  ∃ m, detail
         {| status_code := 500;
            detail := "Batch analysis failed: Hugging Face API Error: 503 Server Error: Service Unavailable" |}
       = "Batch analysis failed: " +:+ m.
Proof.
  apply (analyze_commits_batch_failure (foldl add 0%float) failing_post
           ["x"; "y"] ["x"]).
  reflexivity.
Defined.

End CommitBatchFacts.
